(** * Ticket system WebSocket server: registry, rooms and event routing

    A shallow embedding of [src/websocket-server.js]: the in-memory
    registry ([activeUsers], [adminSockets]), the Socket.IO room
    membership the handlers rely on, the real-time event handlers and the
    REST status endpoint, followed by the properties of the specification
    that concern them. *)

From Stdlib Require Import ZArith String Ascii List Bool Lia.
From stdpp Require Import base option list gmap sets strings.

Local Open Scope string_scope.
Local Open Scope Z_scope.

(** ** JavaScript values

    Payload fields, registry fields and column values are JavaScript
    primitives.  Numbers are IEEE 754 doubles, held exactly: [Number]
    reads a string by the grammar of numeric string literals and rounds
    the value to the nearest double, and a number prints as the shortest
    decimal that reads back as the same double. *)

Module JS.

(** A number: [NaN], an integer, a fraction [m / 2^k], or an infinity.
    It stands for the double nearest to it, which [double] below computes:
    an integer, or a fraction with an odd numerator, of at most 53 bits.
    Negative zero is not kept apart from zero: the two are equal under
    [===], print alike and are both falsy. *)
Inductive num : Type :=
| NaN
| Int (z : Z)
| Dyadic (m : Z) (k : positive)
| Infinity (negative : bool).

#[export] Instance num_eq_dec : EqDecision num.
Proof. solve_decision. Defined.

(** Quotient of two positive numbers, rounded to nearest, ties to even. *)
Definition div_half_even (n d : Z) : Z :=
  let q := n / d in
  match 2 * (n mod d) ?= d with
  | Lt => q
  | Gt => q + 1
  | Eq => if Z.even q then q else q + 1
  end.

(** [floor (log2 (a / b))] for positive [a] and [b]. *)
Definition log2_ratio (a b : Z) : Z :=
  let e := Z.log2 a - Z.log2 b in
  if (if 0 <=? e then b * 2 ^ e <=? a else b <=? a * 2 ^ (- e))
  then e else e - 1.

(** [m * 2^t] in lowest terms. *)
Definition dyadic (m t : Z) : num :=
  if 0 <=? t then Int (m * 2 ^ t)
  else
    let g := Z.gcd m (2 ^ (- t)) in
    let d := 2 ^ (- t) / g in
    if d =? 1 then Int (m / g) else Dyadic (m / g) (Z.to_pos (Z.log2 d)).

(** The double nearest to [p / q] for a positive [q]: 53 bits of
    precision, exponents from -1074 to 971, ties to even, overflow to
    infinity. *)
Definition round_rational (p q : Z) : num :=
  if p =? 0 then Int 0
  else
    let a := Z.abs p in
    let t := Z.max (log2_ratio a q) (-1022) - 52 in
    let m := if 0 <=? t then div_half_even a (q * 2 ^ t)
             else div_half_even (a * 2 ^ (- t)) q in
    if m =? 0 then Int 0
    else if (0 <=? t) && (2 ^ 1024 <=? m * 2 ^ t) then Infinity (p <? 0)
    else dyadic (Z.sgn p * m) t.

(** The double a number stands for. *)
Definition double (n : num) : num :=
  match n with
  | NaN => NaN
  | Int z => round_rational z 1
  | Dyadic m k => round_rational m (2 ^ Z.pos k)
  | Infinity b => Infinity b
  end.

(** [x === y] on numbers. *)
Definition num_eq (x y : num) : bool :=
  match double x, double y with
  | NaN, _ | _, NaN => false
  | a, b => bool_decide (a = b)
  end.

Definition num_truthy (x : num) : bool :=
  match double x with
  | NaN => false
  | Int z => negb (z =? 0)
  | _ => true
  end.

(** Decimal digits of a nonnegative number, most significant first. *)
Fixpoint digits_fuel (fuel : nat) (n : Z) (acc : string) : string :=
  match fuel with
  | O => acc
  | S fuel' =>
      let d := ascii_of_nat (48 + Z.to_nat (n mod 10)) in
      let acc' := String d acc in
      if n / 10 =? 0 then acc' else digits_fuel fuel' (n / 10) acc'
  end.

Definition digits (n : Z) : string :=
  digits_fuel (S (Z.to_nat (Z.log2 n))) n "".

(** [10^n <= a / b] *)
Definition ge_pow10 (a b n : Z) : bool :=
  if 0 <=? n then b * 10 ^ n <=? a else b <=? a * 10 ^ (- n).

Fixpoint decimal_exponent_from (fuel : nat) (a b n : Z) : Z :=
  match fuel with
  | O => n
  | S fuel' =>
      if ge_pow10 a b (n - 1) then n
      else decimal_exponent_from fuel' a b (n - 1)
  end.

(** The [n] with [10^(n-1) <= a / b < 10^n]. *)
Definition decimal_exponent (a b : Z) : Z :=
  decimal_exponent_from 8 a b
    ((Z.log2 a - Z.log2 b + 1) * 30103 / 100000 + 2).

(** [c * 10^e] rounds to the double [x]. *)
Definition rounds_to (x : num) (c e : Z) : bool :=
  bool_decide (round_rational (c * 10 ^ Z.max e 0) (10 ^ Z.max (- e) 0) = x).

(** The [k]-digit decimal [s * 10^(n-k)] nearest to [a / b] among those
    that round to [x], if there is one. *)
Definition shortest_at (x : num) (a b n k : Z) : option Z :=
  let e := n - k in
  let num := a * 10 ^ Z.max (- e) 0 in
  let den := b * 10 ^ Z.max e 0 in
  let lo := num / den in
  let hi := lo + 1 in
  match (0 <? lo) && rounds_to x lo e, rounds_to x hi e with
  | true, true =>
      match 2 * (num mod den) ?= den with
      | Lt => Some lo
      | Gt => Some hi
      | Eq => Some (if Z.even lo then lo else hi)
      end
  | true, false => Some lo
  | false, true => Some hi
  | false, false => None
  end.

Fixpoint shortest_from (fuel : nat) (x : num) (a b n k : Z) : Z * Z :=
  match fuel with
  | O => (a * 10 ^ Z.max (k - n) 0 / (b * 10 ^ Z.max (n - k) 0), k)
  | S fuel' =>
      match shortest_at x a b n k with
      | Some s => (s, k)
      | None => shortest_from fuel' x a b n (k + 1)
      end
  end.

Fixpoint zeros (n : nat) : string :=
  match n with O => "" | S n' => String "0" (zeros n') end.

Fixpoint strip_zeros_rev (s : list ascii) : list ascii :=
  match s with
  | "0"%char :: r => strip_zeros_rev r
  | _ => s
  end.

Definition strip_trailing_zeros (s : string) : string :=
  string_of_list_ascii (rev (strip_zeros_rev (rev (list_ascii_of_string s)))).

(** The digits [ds] with the decimal point after the [n]-th, written as
    [Number::toString] writes them. *)
Definition format_decimal (ds : string) (n : Z) : string :=
  let k := Z.of_nat (String.length ds) in
  if (-5 <=? n) && (n <=? 21) then
    if k <=? n then ds ++ zeros (Z.to_nat (n - k))
    else if 0 <? n
    then substring 0 (Z.to_nat n) ds ++ "."
         ++ substring (Z.to_nat n) (Z.to_nat (k - n)) ds
    else "0." ++ zeros (Z.to_nat (- n)) ++ ds
  else
    let e := n - 1 in
    let es := (if e <? 0 then "-" else "+") ++ digits (Z.abs e) in
    match ds with
    | String c EmptyString => String c ("e" ++ es)
    | String c r => String c ("." ++ r ++ "e" ++ es)
    | EmptyString => EmptyString
    end.

(** The shortest decimal that rounds to the positive double [a / b]. *)
Definition positive_to_string (x : num) (a b : Z) : string :=
  let n := decimal_exponent a b in
  let '(s, k) := shortest_from 20 x a b n 1 in
  let ds := digits s in
  format_decimal (strip_trailing_zeros ds)
    (n - k + Z.of_nat (String.length ds)).

(** [Number::toString] of a double. *)
Definition number_to_string (x : num) : string :=
  match x with
  | NaN => "NaN"
  | Infinity false => "Infinity"
  | Infinity true => "-Infinity"
  | Int z =>
      if z =? 0 then "0"
      else if Z.abs z <? 2 ^ 53
      then (if z <? 0 then "-" else "") ++ digits (Z.abs z)
      else (if z <? 0 then "-" else "")
           ++ positive_to_string (Int (Z.abs z)) (Z.abs z) 1
  | Dyadic m k =>
      (if m <? 0 then "-" else "")
      ++ positive_to_string (Dyadic (Z.abs m) k) (Z.abs m) (2 ^ Z.pos k)
  end.

(** The rest of [s] after one white space or line terminator character
    at its head (the characters of [StrWhiteSpaceChar], in UTF-8). *)
Definition skip_space (s : string) : option string :=
  match s with
  | EmptyString => None
  | String c r =>
      let n := nat_of_ascii c in
      if ((n =? 9) || (n =? 10) || (n =? 11) || (n =? 12) || (n =? 13)
          || (n =? 32))%nat then Some r
      else
        match r with
        | String d r1 =>
            let n1 := nat_of_ascii d in
            if ((n =? 194) && (n1 =? 160))%nat then Some r1
            else
              match r1 with
              | String e r2 =>
                  let n2 := nat_of_ascii e in
                  if ((n =? 225) && (n1 =? 154) && (n2 =? 128)
                      || (n =? 226) && (n1 =? 128)
                         && ((128 <=? n2) && (n2 <=? 138)
                             || (n2 =? 168) || (n2 =? 169) || (n2 =? 175))
                      || (n =? 226) && (n1 =? 129) && (n2 =? 159)
                      || (n =? 227) && (n1 =? 128) && (n2 =? 128)
                      || (n =? 239) && (n1 =? 187) && (n2 =? 191))%nat
                  then Some r2 else None
              | EmptyString => None
              end
        | EmptyString => None
        end
  end.

Fixpoint trim_left_fuel (fuel : nat) (s : string) : string :=
  match fuel with
  | O => s
  | S fuel' =>
      match skip_space s with
      | Some r => trim_left_fuel fuel' r
      | None => s
      end
  end.

Definition trim_left (s : string) : string :=
  trim_left_fuel (String.length s) s.

Definition all_space (s : string) : bool :=
  String.eqb (trim_left s) "".

Fixpoint trim_right (s : string) : string :=
  match s with
  | EmptyString => EmptyString
  | String c r => if all_space s then EmptyString else String c (trim_right r)
  end.

Definition trim (s : string) : string := trim_right (trim_left s).

Definition digit_value (base : Z) (c : ascii) : option Z :=
  let n := Z.of_nat (nat_of_ascii c) in
  let v := if (48 <=? n) && (n <=? 57) then Some (n - 48)
           else if (97 <=? n) && (n <=? 102) then Some (n - 87)
           else if (65 <=? n) && (n <=? 70) then Some (n - 55)
           else None in
  match v with
  | Some d => if d <? base then Some d else None
  | None => None
  end.

(** The run of digits at the head of [s]: its value on top of [acc], the
    number of digits read, and the rest. *)
Fixpoint read_digits (base : Z) (s : string) (acc count : Z) : Z * Z * string :=
  match s with
  | EmptyString => (acc, count, s)
  | String c r =>
      match digit_value base c with
      | Some d => read_digits base r (base * acc + d) (count + 1)
      | None => (acc, count, s)
      end
  end.

(** [0x], [0o] and [0b] literals. *)
Definition nondecimal (base : Z) (s : string) : num :=
  match read_digits base s 0 0 with
  | (v, count, EmptyString) => if 0 <? count then round_rational v 1 else NaN
  | _ => NaN
  end.

(** [mantissa * 10^e] as a double *)
Definition scaled (negative : bool) (mantissa count e : Z) : num :=
  if mantissa =? 0 then Int 0
  else if 400 <? e then Infinity negative
  else if e + count <? -400 then Int 0
  else round_rational ((if negative then - mantissa else mantissa)
                       * 10 ^ Z.max e 0) (10 ^ Z.max (- e) 0).

(** The exponent part and the end of the literal. *)
Definition exponent_part (s : string) : option Z :=
  match s with
  | EmptyString => Some 0
  | String c r =>
      if Ascii.eqb c "e" || Ascii.eqb c "E" then
        let '(negative, r1) :=
          match r with
          | String "-"%char r1 => (true, r1)
          | String "+"%char r1 => (false, r1)
          | _ => (false, r)
          end in
        match read_digits 10 r1 0 0 with
        | (v, count, EmptyString) =>
            if 0 <? count then Some (if negative then - v else v) else None
        | _ => None
        end
      else None
  end.

(** [StrUnsignedDecimalLiteral] *)
Definition unsigned_decimal (negative : bool) (s : string) : num :=
  if String.eqb s "Infinity" then Infinity negative
  else
    let '(ip, ni, r1) := read_digits 10 s 0 0 in
    let '(mantissa, nf, r2) :=
      match r1 with
      | String "."%char r => read_digits 10 r ip 0
      | _ => (ip, 0, r1)
      end in
    if 0 <? ni + nf then
      match exponent_part r2 with
      | Some e => scaled negative mantissa (ni + nf) (e - nf)
      | None => NaN
      end
    else NaN.

(** [StringToNumber]: the literal between the surrounding white space,
    rounded to a double; the empty string is [0] and what is no numeric
    literal is [NaN]. *)
Definition string_to_number (s : string) : num :=
  match trim s with
  | EmptyString => Int 0
  | String "0"%char (String c r) as t =>
      if Ascii.eqb c "x" || Ascii.eqb c "X" then nondecimal 16 r
      else if Ascii.eqb c "o" || Ascii.eqb c "O" then nondecimal 8 r
      else if Ascii.eqb c "b" || Ascii.eqb c "B" then nondecimal 2 r
      else unsigned_decimal false t
  | String "+"%char r => unsigned_decimal false r
  | String "-"%char r => unsigned_decimal true r
  | t => unsigned_decimal false t
  end.

Inductive value : Type :=
| Undefined
| Null
| Bool (b : bool)
| Num (n : num)
| Str (s : string).

#[export] Instance value_eq_dec : EqDecision value.
Proof. solve_decision. Defined.

(** [ToBoolean]: the test behind [Boolean(x)], [!x], [if (x)] and [x || y]. *)
Definition truthy (v : value) : bool :=
  match v with
  | Undefined | Null => false
  | Bool b => b
  | Num n => num_truthy n
  | Str s => negb (String.eqb s "")
  end.

(** [x || y] *)
Definition or (x y : value) : value := if truthy x then x else y.

(** [x === y] on primitives: same type and same value, [NaN] unequal to
    itself. *)
Definition strict_eq (x y : value) : bool :=
  match x, y with
  | Undefined, Undefined => true
  | Null, Null => true
  | Bool a, Bool b => Bool.eqb a b
  | Num a, Num b => num_eq a b
  | Str a, Str b => String.eqb a b
  | _, _ => false
  end.

(** [ToString], as used by template literals. *)
Definition to_string (v : value) : string :=
  match v with
  | Undefined => "undefined"
  | Null => "null"
  | Bool true => "true"
  | Bool false => "false"
  | Num n => number_to_string (double n)
  | Str s => s
  end.

(** [Number(x)] *)
Definition Number (v : value) : value :=
  match v with
  | Undefined => Num NaN
  | Null => Num (Int 0)
  | Bool true => Num (Int 1)
  | Bool false => Num (Int 0)
  | Num n => Num n
  | Str s => Num (string_to_number s)
  end.

(** A plain object: inbound event payloads, registry entries, result rows
    and outbound payloads alike. *)
Abbreviation obj := (gmap string value).

(** Property read [o.k]; a missing property reads as [undefined]. *)
Definition prop (o : obj) (k : string) : value := default Undefined (o !! k).

(** Object literal [{ k1: v1, k2: v2, ... }]. *)
Definition literal (l : list (string * value)) : obj := list_to_map l.

End JS.

Import JS.

(** ** Server state

    [activeUsers] and [adminSockets] are the two module-level containers of
    the source.  [io_sockets] and [io_rooms] are the part of the Socket.IO
    server the handlers depend on: the connected sockets and the members of
    every ticket room. *)

Record ServerState : Type := mkState {
  activeUsers : gmap string obj;
  adminSockets : gset string;
  io_sockets : gset string;
  io_rooms : gmap string (gset string)
}.

Definition initial : ServerState :=
  {| activeUsers := ∅; adminSockets := ∅; io_sockets := ∅; io_rooms := ∅ |}.

Definition room_members (st : ServerState) (room : string) : gset string :=
  default ∅ (io_rooms st !! room).

(** ** Outbound events *)

Inductive Target : Type :=
| ToSocket (id : string)                    (* socket.emit, io.to(socketId) *)
| ToRoom (room : string)                    (* io.to(roomName) *)
| ToRoomExcept (room : string) (id : string). (* socket.to(roomName) *)

Record Emit : Type := mkEmit {
  target : Target;
  event : string;
  payload : obj
}.

#[export] Instance Target_eq_dec : EqDecision Target.
Proof. solve_decision. Defined.

(** The sockets an emit reaches.  A socket is the only member of the room
    named by its own id for as long as it is connected. *)
Definition recipients (st : ServerState) (t : Target) : gset string :=
  match t with
  | ToSocket id => if decide (id ∈ io_sockets st) then {[id]} else ∅
  | ToRoom room => room_members st room
  | ToRoomExcept room id => room_members st room ∖ {[id]}
  end.

Definition receives (st : ServerState) (id ev : string) (e : Emit) : bool :=
  bool_decide (event e = ev) && bool_decide (id ∈ recipients st (target e)).

(** How many times socket [id] is handed event [ev] by a run of emits. *)
Definition received (st : ServerState) (id ev : string) (es : list Emit) : nat :=
  length (List.filter (receives st id ev) es).

Definition roomName (ticketId : value) : string :=
  "ticket_" ++ to_string ticketId.

(** [notifyAdmins(event, data)] *)
Definition notifyAdmins (st : ServerState) (ev : string) (data : obj) : list Emit :=
  (λ socketId, mkEmit (ToSocket socketId) ev data) <$> elements (adminSockets st).

(** ** Synchronous handlers

    Each handler is the closure registered for one socket; [socket_id] is
    [socket.id] and [data] the payload of the inbound event. *)

(** [io.on('connection', ...)]: the transport has the socket; the body only
    logs and installs the handlers below. *)
Definition connection (socket_id : string) (st : ServerState) : ServerState :=
  {| activeUsers := activeUsers st;
     adminSockets := adminSockets st;
     io_sockets := {[socket_id]} ∪ io_sockets st;
     io_rooms := io_rooms st |}.

Definition join_system (socket_id : string) (data : obj) (st : ServerState)
  : ServerState * list Emit :=
  let userId := prop data "userId" in
  let username := prop data "username" in
  let isAdmin := prop data "isAdmin" in
  let users :=
    <[socket_id := literal [("userId", userId); ("username", username);
                            ("isAdmin", Bool (truthy isAdmin));
                            ("ticketId", Null)]]> (activeUsers st) in
  let admins :=
    if truthy isAdmin then {[socket_id]} ∪ adminSockets st else adminSockets st in
  ({| activeUsers := users; adminSockets := admins;
      io_sockets := io_sockets st; io_rooms := io_rooms st |},
   [mkEmit (ToSocket socket_id) "system_joined"
      (literal [("success", Bool true);
                ("message", Str "Connected to ticket system")])]).

Definition join_ticket (socket_id : string) (data : obj) (st : ServerState)
  : ServerState * list Emit :=
  let ticketId := prop data "ticketId" in
  let username := prop data "username" in
  let isAdmin := prop data "isAdmin" in
  let room := roomName ticketId in
  let rooms := <[room := {[socket_id]} ∪ room_members st room]> (io_rooms st) in
  let userInfo := default ∅ (activeUsers st !! socket_id) in
  let userInfo := <["ticketId" := ticketId]> userInfo in
  ({| activeUsers := <[socket_id := userInfo]> (activeUsers st);
      adminSockets := adminSockets st;
      io_sockets := io_sockets st; io_rooms := rooms |},
   [mkEmit (ToRoomExcept room socket_id) "user_joined"
      (literal [("username", username);
                ("isAdmin", Bool (truthy isAdmin));
                ("message", Str (to_string username ++ " joined the chat"))])]).

Definition leave_ticket (socket_id : string) (data : obj) (st : ServerState)
  : ServerState * list Emit :=
  let ticketId := prop data "ticketId" in
  let username := prop data "username" in
  let room := roomName ticketId in
  let rooms := <[room := room_members st room ∖ {[socket_id]}]> (io_rooms st) in
  ({| activeUsers := activeUsers st; adminSockets := adminSockets st;
      io_sockets := io_sockets st; io_rooms := rooms |},
   [mkEmit (ToRoomExcept room socket_id) "user_left"
      (literal [("username", username);
                ("message", Str (to_string username ++ " left the chat"))])]).

(** The transport drops the socket from its rooms before the handler of
    ['disconnect'] runs. *)
Definition io_drop (socket_id : string) (st : ServerState) : ServerState :=
  {| activeUsers := activeUsers st; adminSockets := adminSockets st;
     io_sockets := io_sockets st ∖ {[socket_id]};
     io_rooms := (λ members, members ∖ {[socket_id]}) <$> io_rooms st |}.

Definition disconnect (socket_id : string) (st0 : ServerState)
  : ServerState * list Emit :=
  let st := io_drop socket_id st0 in
  match activeUsers st !! socket_id with
  | Some user =>
      let left :=
        if truthy (prop user "ticketId")
        then [mkEmit (ToRoomExcept (roomName (prop user "ticketId")) socket_id)
                "user_left"
                (literal [("username", prop user "username");
                          ("message", Str (to_string (prop user "username")
                                           ++ " left the chat"))])]
        else [] in
      let admins :=
        if truthy (prop user "isAdmin")
        then adminSockets st ∖ {[socket_id]} else adminSockets st in
      ({| activeUsers := delete socket_id (activeUsers st);
          adminSockets := admins;
          io_sockets := io_sockets st; io_rooms := io_rooms st |}, left)
  | None => (st, [])
  end.

Definition typing (socket_id : string) (data : obj) : list Emit :=
  [mkEmit (ToRoomExcept (roomName (prop data "ticketId")) socket_id) "user_typing"
     (literal [("username", prop data "username")])].

Definition stop_typing (socket_id : string) (data : obj) : list Emit :=
  [mkEmit (ToRoomExcept (roomName (prop data "ticketId")) socket_id)
     "user_stop_typing" ∅].

(** [now] stands for [new Date().toISOString()]. *)
Definition ticket_created (now : value) (data : obj) (st : ServerState) : list Emit :=
  notifyAdmins st "new_ticket"
    (literal [("ticketId", prop data "ticketId"); ("title", prop data "title");
              ("category", prop data "category");
              ("username", prop data "username"); ("timestamp", now)]).

(** [GET /health] *)
Definition health (now : value) (st : ServerState) : obj :=
  literal [("status", Str "ok");
           ("activeUsers", Num (Int (Z.of_nat (size (activeUsers st)))));
           ("adminCount", Num (Int (Z.of_nat (size (adminSockets st)))));
           ("timestamp", now)].

(** ** Storage

    The MySQL pool is a collaborator of the server.  Its interface is the
    four statements the handlers execute; [None] is a rejected promise.
    The type [DB] is whatever the storage keeps between calls. *)

Class Storage (DB : Type) : Type := {
  (** [pool.getConnection()]; [false] when no connection is obtained. *)
  pool_getConnection : DB → bool;
  (** [INSERT INTO ticket_messages (ticket_id, sender, account_id, text,
      image_url) VALUES (?, ?, ?, ?, ?)], giving the result header. *)
  insert_message : DB → list value → option (obj * DB);
  (** [SELECT tm.*, a.login as username FROM ticket_messages tm JOIN
      account a ON tm.account_id = a.id WHERE tm.id = ?] *)
  select_message : DB → list value → option (list obj);
  (** [SELECT account_id, phone, sms_requested FROM tickets WHERE id = ?] *)
  select_ticket_owner : DB → list value → option (list obj);
  (** [SELECT t.*, a.login as username FROM tickets t JOIN account a ON
      t.account_id = a.id WHERE t.id = ?] *)
  select_ticket : DB → list value → option (list obj)
}.

(** [connection.execute(sql, params)] of the mysql2 driver throws a
    [TypeError] when a bind parameter is [undefined], before the statement
    reaches the server.  A statement behind that driver: *)
Definition refuses_undefined_binds {DB A : Type}
    (statement : DB → list value → option A) : Prop :=
  ∀ db params, Undefined ∈ params → statement db params = None.

(** ** Asynchronous handlers

    A task threads the storage, accumulates the emits made so far and
    either returns or throws ([None]); emits made before a throw stay
    made. *)

Section Tasks.
Context {DB : Type} `{Storage DB}.

Definition Task (A : Type) : Type := DB → DB * list Emit * option A.

Definition ret {A} (a : A) : Task A := λ db, (db, [], Some a).

Definition bind {A B} (m : Task A) (k : A → Task B) : Task B := λ db,
  match m db with
  | (db1, es1, Some a) =>
      match k a db1 with (db2, es2, r) => (db2, (es1 ++ es2)%list, r) end
  | (db1, es1, None) => (db1, es1, None)
  end.

Definition throw {A} : Task A := λ db, (db, [], None).

Definition emit (e : Emit) : Task unit := λ db, (db, [e], Some tt).

Definition emit_all (es : list Emit) : Task unit := λ db, (db, es, Some tt).

(** [try { m } catch (error) { h }] *)
Definition try_catch {A} (m : Task A) (h : Task A) : Task A := λ db,
  match m db with
  | (db1, es1, Some a) => (db1, es1, Some a)
  | (db1, es1, None) =>
      match h db1 with (db2, es2, r) => (db2, (es1 ++ es2)%list, r) end
  end.

(** [await] of a storage read *)
Definition query {A} (q : DB → option A) : Task A := λ db,
  match q db with Some a => (db, [], Some a) | None => (db, [], None) end.

(** [await pool.getConnection()] *)
Definition getConnection : Task unit := λ db,
  if pool_getConnection db then (db, [], Some tt) else (db, [], None).

(** [await connection.execute('INSERT ...', params)] *)
Definition execute_insert (params : list value) : Task obj := λ db,
  match insert_message db params with
  | Some (result, db') => (db', [], Some result)
  | None => (db, [], None)
  end.

(** [rows[0]] followed by a property read: reading a property of
    [undefined] throws. *)
Definition first_row (rows : list obj) : Task obj :=
  match rows with
  | row :: _ => ret row
  | [] => throw
  end.

End Tasks.

Notation "'await' x ':=' m 'in' k" := (bind m (λ x, k))
  (at level 10, x name, m at level 100, k at level 200, only parsing).
Notation "m ;; k" := (bind m (λ _, k))
  (at level 100, k at level 200, right associativity, only parsing).

Section Handlers.
Context {DB : Type} `{Storage DB}.

(** The owner lookup of the admin-message path and of the REST path:
    [Array.from(activeUsers.entries()).filter(([socketId, user]) =>
       Number(user.userId) === Number(ownerId) && !user.isAdmin)
     .map(([socketId]) => socketId)] *)
Definition is_owner_non_admin (ownerId : value) (entry : string * obj) : bool :=
  strict_eq (Number (prop entry.2 "userId")) (Number ownerId)
  && negb (truthy (prop entry.2 "isAdmin")).

Definition ownerSockets (st : ServerState) (ownerId : value) : list string :=
  fst <$> List.filter (is_owner_non_admin ownerId) (map_to_list (activeUsers st)).

(** The owner lookup of the real-time status path:
    [user.userId === ticket.account_id && user.ticketId !== ticketId] *)
Definition is_owner_outside_room (account_id ticketId : value)
    (entry : string * obj) : bool :=
  strict_eq (prop entry.2 "userId") account_id
  && negb (strict_eq (prop entry.2 "ticketId") ticketId).

Definition ownerSockets_status (st : ServerState) (account_id ticketId : value)
  : list string :=
  fst <$> List.filter (is_owner_outside_room account_id ticketId)
            (map_to_list (activeUsers st)).

Definition new_message_payload (message : obj) : obj :=
  literal [("id", prop message "id");
           ("ticket_id", prop message "ticket_id");
           ("sender", prop message "sender");
           ("username", prop message "username");
           ("text", prop message "text");
           ("image_url", prop message "image_url");
           ("created_at", prop message "created_at")].

Definition notification_payload (data : obj) (messageId : value) (message : obj)
  : obj :=
  literal [("ticketId", prop data "ticketId");
           ("username", prop data "username");
           ("text", prop data "text");
           ("messageId", messageId);
           ("timestamp", prop message "created_at")].

Definition insert_params (data : obj) : list value :=
  [prop data "ticketId"; prop data "sender"; prop data "userId";
   or (prop data "text") (Str ""); or (prop data "image_url") Null].

Definition message_error (socket_id : string) : Emit :=
  mkEmit (ToSocket socket_id) "message_error"
    (literal [("error", Str "Failed to send message")]).

(** [socket.on('send_message', async (data) => ...)].  The registry is read
    once, in the synchronous stretch that ends the handler; [st] is the
    server state at that point. *)
Definition send_message (socket_id : string) (data : obj) (st : ServerState)
  : Task unit :=
  let ticketId := prop data "ticketId" in
  let sender := prop data "sender" in
  try_catch
    (getConnection ;;
     await result := execute_insert (insert_params data) in
     let messageId := prop result "insertId" in
     await messages := query (λ db, select_message db [messageId]) in
     await message := first_row messages in
     emit (mkEmit (ToRoom (roomName ticketId)) "new_message"
             (new_message_payload message)) ;;
     (if strict_eq sender (Str "user")
      then emit_all (notifyAdmins st "new_user_message"
                       (notification_payload data messageId message))
      else ret tt) ;;
     (if strict_eq sender (Str "admin")
      then
        await ticketData := query (λ db, select_ticket_owner db [ticketId]) in
        match ticketData with
        | ticket :: _ =>
            let ownerId := prop ticket "account_id" in
            emit_all
              ((λ socketId, mkEmit (ToSocket socketId) "new_admin_message"
                              (notification_payload data messageId message))
                 <$> ownerSockets st ownerId)
        | [] => ret tt
        end
      else ret tt))
    (emit (message_error socket_id)).

(** [socket.on('status_updated', async (data) => ...)] *)
Definition status_updated (now : value) (data : obj) (st : ServerState)
  : Task unit :=
  let ticketId := prop data "ticketId" in
  let oldStatus := prop data "oldStatus" in
  let newStatus := prop data "newStatus" in
  let updatedBy := prop data "updatedBy" in
  try_catch
    (getConnection ;;
     await tickets := query (λ db, select_ticket db [ticketId]) in
     match tickets with
     | ticket :: _ =>
         emit (mkEmit (ToRoom (roomName ticketId)) "ticket_status_changed"
                 (literal [("ticketId", ticketId); ("oldStatus", oldStatus);
                           ("newStatus", newStatus); ("updatedBy", updatedBy);
                           ("timestamp", now)])) ;;
         emit_all
           ((λ socketId, mkEmit (ToSocket socketId) "ticket_status_changed"
                           (literal [("ticketId", ticketId);
                                     ("title", prop ticket "title");
                                     ("oldStatus", oldStatus);
                                     ("newStatus", newStatus);
                                     ("updatedBy", updatedBy);
                                     ("timestamp", now)]))
              <$> ownerSockets_status st (prop ticket "account_id") ticketId)
     | [] => ret tt
     end)
    (ret tt).

(** ** REST endpoint *)

Record Response : Type := mkResponse {
  status : Z;
  body : obj
}.

Definition status_payload (now : value) (body : obj) (ticket : obj) : obj :=
  literal [("ticketId", prop body "ticketId");
           ("title", prop ticket "title");
           ("oldStatus", prop body "oldStatus");
           ("newStatus", prop body "newStatus");
           ("updatedBy", prop body "updatedBy");
           ("timestamp", now)].

(** [app.post('/api/broadcast-status-update', async (req, res) => ...)];
    [req_body] is [req.body]. *)
Definition broadcast_status_update (now : value) (req_body : obj)
    (st : ServerState) : Task Response :=
  let ticketId := prop req_body "ticketId" in
  let newStatus := prop req_body "newStatus" in
  if negb (truthy ticketId) || negb (truthy newStatus)
  then ret (mkResponse 400
              (literal [("success", Bool false);
                        ("error", Str "Missing required fields")]))
  else
    try_catch
      (getConnection ;;
       await tickets := query (λ db, select_ticket db [ticketId]) in
       match tickets with
       | [] => ret (mkResponse 404
                      (literal [("success", Bool false);
                                ("error", Str "Ticket not found")]))
       | ticket :: _ =>
           let owners := ownerSockets st (prop ticket "account_id") in
           emit_all
             ((λ socketId, mkEmit (ToSocket socketId) "ticket_status_changed"
                             (status_payload now req_body ticket))
                <$> owners) ;;
           ret (mkResponse 200
                  (literal [("success", Bool true);
                            ("message", Str "Status update broadcasted");
                            ("notified",
                             Num (Int (Z.of_nat (length owners))))]))
       end)
      (ret (mkResponse 500
              (literal [("success", Bool false);
                        ("error", Str "Failed to broadcast status update")]))).

(** The insert of [send_message] followed by its re-read of the stored
    row: the insert id, the row and the storage after the insert. *)
Definition persist_and_reread (data : obj) (db : DB) : option (value * obj * DB) :=
  if pool_getConnection db then
    match insert_message db (insert_params data) with
    | Some (result, db1) =>
        match select_message db1 [prop result "insertId"] with
        | Some (message :: _) => Some (prop result "insertId", message, db1)
        | _ => None
        end
    | None => None
    end
  else None.

End Handlers.

(** ** Inbound events and the reachable states *)

Inductive Event : Type :=
| Connection (id : string)
| JoinSystem (id : string) (data : obj)
| JoinTicket (id : string) (data : obj)
| LeaveTicket (id : string) (data : obj)
| Disconnect (id : string)
| SendMessage (id : string) (data : obj)
| Typing (id : string) (data : obj)
| StopTyping (id : string) (data : obj)
| TicketCreated (id : string) (data : obj)
| StatusUpdated (id : string) (data : obj)
| PostBroadcastStatusUpdate (req_body : obj)
| GetHealth.

(** The effect of one inbound event on the server state.  Only a connected
    socket has events dispatched to its handlers; the handlers that follow
    [Disconnect] in the list below leave the state as it is. *)
Definition step (st : ServerState) (ev : Event) : ServerState :=
  match ev with
  | Connection id => connection id st
  | JoinSystem id data =>
      if decide (id ∈ io_sockets st) then (join_system id data st).1 else st
  | JoinTicket id data =>
      if decide (id ∈ io_sockets st) then (join_ticket id data st).1 else st
  | LeaveTicket id data =>
      if decide (id ∈ io_sockets st) then (leave_ticket id data st).1 else st
  | Disconnect id =>
      if decide (id ∈ io_sockets st) then (disconnect id st).1 else st
  | _ => st
  end.

Definition run (evs : list Event) : ServerState := fold_left step evs initial.

Definition reachable (st : ServerState) : Prop := ∃ evs, run evs = st.

(** The connection sent no [join_system] in the course of [evs]. *)
Definition never_joined_system (id : string) (evs : list Event) : Prop :=
  ∀ data, JoinSystem id data ∉ evs.

(** The connection sent neither [join_system] nor [join_ticket] in the
    course of [evs]. *)
Definition not_yet_joined (id : string) (evs : list Event) : Prop :=
  ∀ data, (JoinSystem id data ∉ evs) ∧ (JoinTicket id data ∉ evs).

(** The statement of the admin-set invariant of the data model. *)
Definition admin_set_consistent (st : ServerState) : Prop :=
  ∀ id, id ∈ adminSockets st ↔
        ∃ user, activeUsers st !! id = Some user
                ∧ truthy (prop user "isAdmin") = true.

(** The owner's non-admin connections, as a set. *)
Definition owner_connections (st : ServerState) (ownerId : value) : gset string :=
  dom (filter (λ entry, is_owner_non_admin ownerId entry = true) (activeUsers st)).

Definition emits_of {DB A} (r : DB * list Emit * option A) : list Emit := r.1.2.

Definition outcome_of {DB A} (r : DB * list Emit * option A) : option A := r.2.

Definition storage_of {DB A} (r : DB * list Emit * option A) : DB := r.1.1.

Definition is_event (ev : string) (e : Emit) : bool := bool_decide (event e = ev).

(** ** An in-memory storage

    A small relational store with the three tables the statements touch,
    behind a driver that refuses undefined bind parameters, used to run
    the handlers on concrete inputs. *)

Module MemDB.

Record t : Type := mk {
  online : bool;        (* the pool hands out connections *)
  read_only : bool;     (* writes are refused *)
  next_id : Z;
  clock : value;
  ticket_messages : list obj;
  tickets : list obj;
  account : list obj
}.

(** [connection.execute(sql, params)] of the driver throws a [TypeError]
    on an [undefined] bind parameter, before the statement is sent. *)
Definition bound (params : list value) : bool :=
  negb (existsb (strict_eq Undefined) params).

(** SQL [=] on column values. *)
Definition sql_eq (x y : value) : bool := strict_eq (Number x) (Number y).

(** [JOIN account a ON row.account_id = a.id], adding [a.login as username]. *)
Definition join_account (db : t) (row : obj) : list obj :=
  (λ a, <["username" := prop a "login"]> row)
    <$> List.filter (λ a, sql_eq (prop row "account_id") (prop a "id")) (account db).

Definition where_id (id : value) (rows : list obj) : list obj :=
  List.filter (λ row, sql_eq (prop row "id") id) rows.

Definition insert (db : t) (params : list value) : option (obj * t) :=
  match params with
  | [ticket_id; sender; account_id; text; image_url] =>
      if online db && negb (read_only db) && bound params
      then
        let row := literal [("id", Num (Int (next_id db)));
                            ("ticket_id", ticket_id); ("sender", sender);
                            ("account_id", account_id); ("text", text);
                            ("image_url", image_url);
                            ("created_at", clock db)] in
        Some (literal [("insertId", Num (Int (next_id db)))],
              {| online := online db; read_only := read_only db;
                 next_id := next_id db + 1;
                 clock := clock db;
                 ticket_messages := (ticket_messages db ++ [row])%list;
                 tickets := tickets db; account := account db |})
      else None
  | _ => None
  end.

Definition message_by_id (db : t) (params : list value) : option (list obj) :=
  match params with
  | [id] =>
      if online db && bound params
      then Some (where_id id (ticket_messages db) ≫= join_account db)
      else None
  | _ => None
  end.

Definition ticket_owner_by_id (db : t) (params : list value) : option (list obj) :=
  match params with
  | [id] =>
      if online db && bound params
      then Some (where_id id (tickets db))
      else None
  | _ => None
  end.

Definition ticket_by_id (db : t) (params : list value) : option (list obj) :=
  match params with
  | [id] =>
      if online db && bound params
      then Some (where_id id (tickets db) ≫= join_account db)
      else None
  | _ => None
  end.

#[global] Instance storage : Storage t := {|
  pool_getConnection := online;
  insert_message := insert;
  select_message := message_by_id;
  select_ticket_owner := ticket_owner_by_id;
  select_ticket := ticket_by_id
|}.

(** One account (42, login bob), one ticket (7, owned by 42). *)
Definition sample : t :=
  {| online := true; read_only := false;
     next_id := 100;
     clock := Str "2024-01-01 00:00:00";
     ticket_messages := [];
     tickets := [literal [("id", Num (Int 7)); ("account_id", Num (Int 42));
                          ("title", Str "Login problem");
                          ("status", Str "open"); ("phone", Null);
                          ("sms_requested", Num (Int 0))]];
     account := [literal [("id", Num (Int 1)); ("login", Str "root")];
                 literal [("id", Num (Int 42)); ("login", Str "bob")]] |}.

Definition offline : t :=
  {| online := false; read_only := false;
     next_id := next_id sample;
     clock := clock sample; ticket_messages := []; tickets := tickets sample;
     account := account sample |}.

Definition refusing_writes : t :=
  {| online := true; read_only := true;
     next_id := next_id sample;
     clock := clock sample; ticket_messages := []; tickets := tickets sample;
     account := account sample |}.

End MemDB.

(** ** Scenarios

    Concrete event sequences and payloads on which the handlers are run. *)

Module Scenario.

Definition now : value := Str "2024-01-01T00:00:00.000Z".

Definition identity (userId : value) (username : string) (isAdmin : bool) : obj :=
  literal [("userId", userId); ("username", Str username);
           ("isAdmin", Bool isAdmin)].

Definition ticket (ticketId : value) (username : string) : obj :=
  literal [("ticketId", ticketId); ("username", Str username)].

(** An admin connection that sends [join_system] again, as a plain user. *)
Definition demotion : list Event :=
  [Connection "a";
   JoinSystem "a" (identity (Num (Int 1)) "root" true);
   JoinSystem "a" (identity (Num (Int 1)) "root" false)].

(** The owner of ticket 7 registered with the string form of the id. *)
Definition string_id : list Event :=
  [Connection "u"; JoinSystem "u" (identity (Str "42") "bob" false)].

(** The owner of ticket 7 joined the room of the ticket and left it. *)
Definition left_room : list Event :=
  [Connection "u"; JoinSystem "u" (identity (Num (Int 42)) "bob" false);
   JoinTicket "u" (ticket (Num (Int 7)) "bob");
   LeaveTicket "u" (ticket (Num (Int 7)) "bob")].

(** The owner of ticket 7 joined the room of the ticket, then another. *)
Definition two_rooms : list Event :=
  [Connection "u"; JoinSystem "u" (identity (Num (Int 42)) "bob" false);
   JoinTicket "u" (ticket (Num (Int 7)) "bob");
   JoinTicket "u" (ticket (Num (Int 8)) "bob")].

(** The owner of ticket 7 and an admin, both registered, no room joined. *)
Definition owner_and_admin : list Event :=
  [Connection "u"; JoinSystem "u" (identity (Num (Int 42)) "bob" false);
   Connection "a"; JoinSystem "a" (identity (Num (Int 1)) "root" true)].

Definition status_change : obj :=
  literal [("ticketId", Num (Int 7)); ("oldStatus", Str "open");
           ("newStatus", Str "closed"); ("updatedBy", Str "root")].

Definition admin_message : obj :=
  literal [("ticketId", Num (Int 7)); ("userId", Num (Int 1));
           ("username", Str "root"); ("text", Str "Hello");
           ("sender", Str "admin")].

(** The same message with another [username] and a timestamp of the
    client's own. *)
Definition admin_message_forged : obj :=
  <["username" := Str "mallory"]>
    (<["created_at" := Str "1999-12-31 23:59:59"]> admin_message).

(** An admin message on ticket 7 whose [userId] has no row in [account]. *)
Definition admin_message_unknown_account : obj :=
  <["userId" := Num (Int 999)]> admin_message.

(** Another connection registers and the new one types, before it joins. *)
Definition before_joining : list Event :=
  [Connection "d"; JoinSystem "d" (identity (Num (Int 43)) "eve" false);
   Typing "c" (ticket (Num (Int 7)) "bob")].

(** A message that names no ticket, text or image. *)
Definition message_without_ticket : obj :=
  literal [("userId", Num (Int 42)); ("username", Str "bob");
           ("sender", Str "user")].

(** A message on ticket 7 that carries no text and no image. *)
Definition message_without_text : obj :=
  <["ticketId" := Num (Int 7)]> message_without_ticket.

End Scenario.

(** ** SMS service

    [src/sms-service.js].  Phone numbers and message texts are strings;
    the functions below look at their characters one by one and compare
    them with ASCII characters only.  The fields of [SMS_CONFIG] come from
    a JSON file and are JavaScript values. *)

Module Sms.

Definition is_digit (c : ascii) : bool :=
  let n := nat_of_ascii c in ((48 <=? n) && (n <=? 57))%nat.

(** [s.replace(/[^0-9]/g, '')] *)
Fixpoint keep_digits (s : string) : string :=
  match s with
  | EmptyString => EmptyString
  | String c r => if is_digit c then String c (keep_digits r) else keep_digits r
  end.

(** [s.substring(n)] *)
Fixpoint substring_from (n : nat) (s : string) : string :=
  match n, s with
  | O, _ => s
  | S n', String _ r => substring_from n' r
  | S _, EmptyString => EmptyString
  end.

(** [s.startsWith(p)] *)
Fixpoint startsWith (s p : string) {struct p} : bool :=
  match p, s with
  | EmptyString, _ => true
  | String a p', String b s' => Ascii.eqb b a && startsWith s' p'
  | String _ _, EmptyString => false
  end.

Definition cleanPhoneNumber (phone : string) : string :=
  let phone := keep_digits phone in
  if startsWith phone "90" then substring_from 2 phone
  else if startsWith phone "0" then substring_from 1 phone
  else phone.

(** [s.replace(/c/g, by)] for a single character [c]. *)
Fixpoint replace_all (c : ascii) (by_ : string) (s : string) : string :=
  match s with
  | EmptyString => EmptyString
  | String a r =>
      if Ascii.eqb a c then by_ ++ replace_all c by_ r
      else String a (replace_all c by_ r)
  end.

Definition quot : ascii := ascii_of_nat 34.

Definition escapeXml (text : string) : string :=
  replace_all "'" "&apos;"
    (replace_all quot "&quot;"
       (replace_all ">" "&gt;"
          (replace_all "<" "&lt;"
             (replace_all "&" "&amp;" text)))).

(** The entity of one character, or the character itself. *)
Definition escape_char (c : ascii) : string :=
  if Ascii.eqb c "&" then "&amp;"
  else if Ascii.eqb c "<" then "&lt;"
  else if Ascii.eqb c ">" then "&gt;"
  else if Ascii.eqb c quot then "&quot;"
  else if Ascii.eqb c "'" then "&apos;"
  else String c EmptyString.

Fixpoint escape_each (s : string) : string :=
  match s with
  | EmptyString => EmptyString
  | String c r => escape_char c ++ escape_each r
  end.

Definition is_special (c : ascii) : bool :=
  Ascii.eqb c "&" || Ascii.eqb c "<" || Ascii.eqb c ">"
  || Ascii.eqb c quot || Ascii.eqb c "'".

(** [c] occurs in [s]. *)
Fixpoint occurs (c : ascii) (s : string) : bool :=
  match s with
  | EmptyString => false
  | String a r => Ascii.eqb a c || occurs c r
  end.

Fixpoint all_chars (p : ascii → bool) (s : string) : bool :=
  match s with
  | EmptyString => true
  | String a r => p a && all_chars p r
  end.

(** [s.includes(sub)] *)
Fixpoint includes (s sub : string) {struct s} : bool :=
  startsWith s sub
  || match s with
     | EmptyString => false
     | String _ r => includes r sub
     end.

Definition newline : string := String (ascii_of_nat 10) EmptyString.

(** The line [logSMS(phone, message, response)] appends to the log file;
    [timestamp] is [new Date().toISOString()] and [response] is [None] for
    the default [null]. *)
Definition logEntry (timestamp phone message : string) (response : option string)
  : string :=
  "[" ++ timestamp ++ "] Phone: " ++ phone ++ " | Message: " ++ message
  ++ match response with
     | Some r => if String.eqb r "" then "" else " | Response: " ++ r
     | None => ""
     end
  ++ newline.

Record Config : Type := mkConfig {
  API_URL : value;
  USERNAME : value;
  PASSWORD : value;
  ORIGINATOR : value;
  TYPE : value;
  ENABLED : value
}.

(** The body posted to the gateway. *)
Definition xmlData (cfg : Config) (message cleanedPhone : string) : string :=
  "data=<sms>" ++ newline
  ++ "<kulad>" ++ to_string (USERNAME cfg) ++ "</kulad>" ++ newline
  ++ "<sifre>" ++ to_string (PASSWORD cfg) ++ "</sifre>" ++ newline
  ++ "<gonderen>" ++ to_string (ORIGINATOR cfg) ++ "</gonderen>" ++ newline
  ++ "<mesaj>" ++ escapeXml message ++ "</mesaj>" ++ newline
  ++ "<numaralar>" ++ cleanedPhone ++ "</numaralar>" ++ newline
  ++ "<tur>" ++ to_string (TYPE cfg) ++ "</tur>" ++ newline
  ++ "</sms>".

(** What becomes of the request made in the promise of [sendSMS]:
    [new URL] throws, the response ends, the request errors, or the
    30 second timer fires first. *)
Inductive Attempt : Type :=
| BadURL
| Responded (statusCode : Z) (data : string)
| RequestError (message : string)
| TimedOut.

Record Outcome : Type := mkOutcome {
  logged : list string;        (* lines handed to the log file, in order *)
  posted : option string;      (* the body written to the gateway, if any *)
  resolved : option obj        (* the value of the promise; None: rejected *)
}.

Definition marks_success (data : string) : bool :=
  includes data "OK" || includes data "success" || includes data "Gonderildi".

(** [sendSMS(phone, message)].  [t0] and [t1] are the times of the two
    log lines; [gateway] answers the posted body. *)
Definition sendSMS (cfg : Config) (t0 t1 : string) (gateway : string → Attempt)
    (phone message : string) : Outcome :=
  let first := logEntry t0 phone message None in
  if negb (truthy (ENABLED cfg)) then
    mkOutcome [first] None
      (Some (literal [("success", Bool true);
                      ("message", Str "SMS logged (API disabled)")]))
  else if negb (truthy (USERNAME cfg)) || negb (truthy (PASSWORD cfg))
          || negb (truthy (ORIGINATOR cfg)) then
    mkOutcome [first] None
      (Some (literal [("success", Bool false);
                      ("error", Str "SMS API credentials not configured")]))
  else
    let cleanedPhone := cleanPhoneNumber phone in
    if (String.length cleanedPhone <? 10)%nat then
      mkOutcome [first] None
        (Some (literal [("success", Bool false);
                        ("error", Str "Invalid phone number")]))
    else
      let body := xmlData cfg message cleanedPhone in
      match gateway body with
      | BadURL => mkOutcome [first] None None
      | Responded statusCode data =>
          mkOutcome [first; logEntry t1 cleanedPhone message (Some data)]
            (Some body)
            (Some
               (if (statusCode =? 200) && marks_success data
                then literal [("success", Bool true);
                              ("message", Str "SMS sent successfully");
                              ("response", Str data)]
                else literal [("success", Bool false);
                              ("error", Str ("SMS API response: " ++ data));
                              ("statusCode", Num (Int statusCode))]))
      | RequestError msg =>
          mkOutcome [first] (Some body)
            (Some (literal [("success", Bool false);
                            ("error",
                             Str ("SMS API connection error: " ++ msg))]))
      | TimedOut =>
          mkOutcome [first] (Some body)
            (Some (literal [("success", Bool false);
                            ("error", Str "SMS API request timeout")]))
      end.

(** [sendTicketCreatedSMS(phone, ticketId, title)] *)
Definition sendTicketCreatedSMS (cfg : Config) (t0 t1 : string)
    (gateway : string → Attempt) (phone : string) (ticketId title : value)
  : Outcome :=
  sendSMS cfg t0 t1 gateway phone
    ("Your ticket #" ++ to_string ticketId ++ " '" ++ to_string title
     ++ "' has been created. We will respond shortly.").

(** [sendNewMessageSMS(phone, ticketId, sender)] *)
Definition sendNewMessageSMS (cfg : Config) (t0 t1 : string)
    (gateway : string → Attempt) (phone : string) (ticketId sender : value)
  : Outcome :=
  sendSMS cfg t0 t1 gateway phone
    ("New message from " ++ to_string sender ++ " on ticket #"
     ++ to_string ticketId ++ ". Please check your account.").


End Sms.

(** ** A storage that loses the connection after the message queries

    The in-memory storage, except that the lookup of the ticket owner is
    always refused. *)

Module FlakyDB.

Record t : Type := mk { base : MemDB.t }.

Definition insert (db : t) (params : list value) : option (obj * t) :=
  match MemDB.insert (base db) params with
  | Some (result, base') => Some (result, mk base')
  | None => None
  end.

#[global] Instance storage : Storage t := {|
  pool_getConnection db := MemDB.online (base db);
  insert_message := insert;
  select_message db := MemDB.message_by_id (base db);
  select_ticket_owner _ _ := None;
  select_ticket db := MemDB.ticket_by_id (base db)
|}.

Definition sample : t := mk MemDB.sample.

End FlakyDB.

(** ** More payloads and event sequences *)

Module Cases.

Definition user_message : obj :=
  literal [("ticketId", Num (Int 7)); ("userId", Num (Int 42));
           ("username", Str "bob"); ("text", Str "Hi");
           ("sender", Str "user")].

(** A message whose [sender] is neither of the two roles. *)
Definition system_message : obj :=
  <["sender" := Str "system"]> user_message.

(** A message of an account the storage does not know. *)
Definition orphan_message : obj :=
  <["userId" := Num (Int 999)]> user_message.

(** An admin message on a ticket the storage does not know. *)
Definition admin_message_unknown_ticket : obj :=
  <["ticketId" := Num (Int 99)]> Scenario.admin_message.

(** Two users in the room of ticket 7, a third connected outside it. *)
Definition two_in_room : list Event :=
  [Connection "u"; JoinSystem "u" (Scenario.identity (Num (Int 42)) "bob" false);
   JoinTicket "u" (Scenario.ticket (Num (Int 7)) "bob");
   Connection "v"; JoinSystem "v" (Scenario.identity (Num (Int 43)) "eve" false);
   JoinTicket "v" (Scenario.ticket (Num (Int 7)) "eve");
   Connection "w"; JoinSystem "w" (Scenario.identity (Num (Int 44)) "dan" false)].

End Cases.

(** * Properties *)

(** ** The primitives on sample values *)

Example Number_of_string_id : Number (Str "42") = Num (Int 42).
Proof. reflexivity. Qed.

Example Number_of_padded_id : Number (Str " 42 ") = Number (Num (Int 42)).
Proof. reflexivity. Qed.

Example Number_of_undefined : Number Undefined = Num NaN.
Proof. reflexivity. Qed.

Example NaN_not_strictly_equal : strict_eq (Num NaN) (Num NaN) = false.
Proof. reflexivity. Qed.

Example string_id_not_strictly_equal :
  strict_eq (Str "42") (Num (Int 42)) = false
  ∧ strict_eq (Number (Str "42")) (Number (Num (Int 42))) = true.
Proof. split; reflexivity. Qed.

Example roomName_of_number_and_string :
  roomName (Num (Int 7)) = "ticket_7" ∧ roomName (Str "7") = "ticket_7"
  ∧ roomName Undefined = "ticket_undefined".
Proof. repeat split; reflexivity. Qed.

Example Number_reads_numeric_literals :
  Number (Str "42.0") = Num (Int 42) ∧ Number (Str "0x2a") = Num (Int 42)
  ∧ Number (Str "4.2e1") = Num (Int 42) ∧ Number (Str "+42") = Num (Int 42)
  ∧ Number (Str "-0") = Num (Int 0) ∧ Number (Str "") = Num (Int 0)
  ∧ Number (Str ".5") = Num (Dyadic 1 1)
  ∧ Number (Str "Infinity") = Num (Infinity false)
  ∧ Number (Str "-1e999") = Num (Infinity true)
  ∧ Number (Str "42px") = Num NaN ∧ Number (Str "0x") = Num NaN
  ∧ Number (Str "-0x2a") = Num NaN ∧ Number (Str "1e") = Num NaN.
Proof. repeat split; vm_compute; reflexivity. Qed.

Example Number_rounds_to_the_nearest_double :
  Number (Str "9007199254740993") = Num (Int 9007199254740992)
  ∧ Number (Str "0.1") = Num (Dyadic 3602879701896397 55)
  ∧ strict_eq (Num (Int 9007199254740993)) (Num (Int 9007199254740992)) = true
  ∧ strict_eq (Number (Str "0.1")) (Number (Str "0.10000000000000001")) = true
  ∧ strict_eq (Number (Str "42.5")) (Num (Int 42)) = false
  ∧ strict_eq (Num (Infinity false)) (Number (Str "1e400")) = true
  ∧ Number (Str "1e-400") = Num (Int 0).
Proof. repeat split; vm_compute; reflexivity. Qed.

Example to_string_of_numbers :
  to_string (Num (Int (-7))) = "-7" ∧ to_string (Num (Dyadic 3 1)) = "1.5"
  ∧ to_string (Number (Str "0.1")) = "0.1"
  ∧ to_string (Number (Str "1e-7")) = "1e-7"
  ∧ to_string (Num (Int (10 ^ 20))) = "100000000000000000000"
  ∧ to_string (Num (Int (10 ^ 21))) = "1e+21"
  ∧ to_string (Num (Int (2 ^ 60))) = "1152921504606847000"
  ∧ to_string (Num (Int 9007199254740993)) = "9007199254740992"
  ∧ to_string (Num (Infinity true)) = "-Infinity"
  ∧ roomName (Num (Int (10 ^ 21))) = "ticket_1e+21"
  ∧ roomName (Number (Str "7.50")) = "ticket_7.5".
Proof. repeat split; vm_compute; reflexivity. Qed.

(** ** Lists, filters and counting *)

Lemma List_filter_stdpp {A} (f : A → bool) (l : list A) :
  List.filter f l = filter (λ x, f x = true) l.
Proof.
  induction l as [|a l IH]; [done|].
  cbn [List.filter]. rewrite filter_cons. destruct (f a) eqn:E.
  - rewrite decide_True by done. by rewrite IH.
  - rewrite decide_False by congruence. done.
Qed.

Lemma elem_of_List_filter {A} (f : A → bool) (l : list A) (x : A) :
  x ∈ List.filter f l ↔ x ∈ l ∧ f x = true.
Proof. rewrite List_filter_stdpp, list_elem_of_filter. tauto. Qed.

Lemma NoDup_fst_List_filter {A B} (f : A * B → bool) (l : list (A * B)) :
  NoDup (l.*1) → NoDup ((List.filter f l).*1).
Proof.
  intros Hnd. rewrite List_filter_stdpp.
  eapply sublist_NoDup; [exact Hnd|].
  apply fmap_sublist, sublist_filter.
Qed.

Section Counting.
Context (st : ServerState).

Lemma received_nil id ev : received st id ev [] = 0%nat.
Proof. done. Qed.

Lemma received_app id ev es1 es2 :
  received st id ev (es1 ++ es2)%list
  = (received st id ev es1 + received st id ev es2)%nat.
Proof. unfold received. by rewrite List.filter_app, length_app. Qed.

Lemma received_other_event id ev es :
  Forall (λ e, event e ≠ ev) es → received st id ev es = 0%nat.
Proof.
  induction 1 as [|e es He _ IH]; [done|].
  unfold received in *. cbn [List.filter]. unfold receives at 1.
  rewrite bool_decide_eq_false_2 by done. exact IH.
Qed.

Lemma receives_to_socket id ev ev' p s :
  receives st id ev (mkEmit (ToSocket s) ev' p)
  = bool_decide (ev' = ev) && bool_decide (id = s ∧ s ∈ io_sockets st).
Proof.
  unfold receives. cbn [target event recipients]. f_equal.
  apply bool_decide_ext. destruct (decide (s ∈ io_sockets st)) as [Hin|Hout].
  - rewrite elem_of_singleton. tauto.
  - split; [by intros ?%not_elem_of_empty|tauto].
Qed.

Lemma received_cons id ev e es :
  received st id ev (e :: es)
  = ((if receives st id ev e then 1 else 0) + received st id ev es)%nat.
Proof. unfold received. cbn [List.filter]. by destruct (receives st id ev e). Qed.

Lemma received_absent id ev ev' p (l : list string) :
  id ∉ l →
  received st id ev ((λ s, mkEmit (ToSocket s) ev' p) <$> l) = 0%nat.
Proof.
  induction l as [|s l IH]; [done|].
  intros Hnotin. apply not_elem_of_cons in Hnotin as [Hne Hl].
  rewrite fmap_cons, received_cons, receives_to_socket, IH by done.
  rewrite (bool_decide_eq_false_2 (id = s ∧ _)) by tauto.
  by rewrite andb_false_r.
Qed.

(** A socket named once in a run of direct emits of [ev] is handed the
    event once if it is connected, and a socket not named is handed
    nothing. *)
Lemma received_to_sockets id ev p (l : list string) :
  NoDup l →
  received st id ev ((λ s, mkEmit (ToSocket s) ev p) <$> l)
  = if decide (id ∈ l ∧ id ∈ io_sockets st) then 1%nat else 0%nat.
Proof.
  induction 1 as [|s l Hs Hnd IH].
  - rewrite decide_False; [done|]. by intros [?%not_elem_of_nil _].
  - rewrite fmap_cons, received_cons, receives_to_socket.
    rewrite bool_decide_eq_true_2 by done. cbn [andb].
    destruct (decide (id = s)) as [->|Hne].
    + rewrite received_absent by done.
      destruct (decide (s ∈ io_sockets st)) as [Hin|Hout].
      * rewrite bool_decide_eq_true_2 by done.
        rewrite decide_True; [done|]. split; [|exact Hin].
        apply elem_of_cons. by left.
      * rewrite bool_decide_eq_false_2 by tauto.
        rewrite decide_False by tauto. done.
    + rewrite IH, bool_decide_eq_false_2 by tauto.
      destruct (decide (id ∈ l ∧ id ∈ io_sockets st)) as [Hy|Hn].
      * rewrite decide_True; [done|]. destruct Hy as [Hl Hc].
        split; [|exact Hc]. apply elem_of_cons. by right.
      * rewrite decide_False; [done|]. intros [Hin ?]. apply Hn.
        apply elem_of_cons in Hin as [?|?]; [done|tauto].
Qed.

End Counting.

(** ** The owner lookups *)

Section Owners.
Context (st : ServerState).

Lemma elem_of_ownerSockets ownerId id :
  id ∈ ownerSockets st ownerId ↔
  ∃ user, activeUsers st !! id = Some user
          ∧ strict_eq (Number (prop user "userId")) (Number ownerId) = true
          ∧ truthy (prop user "isAdmin") = false.
Proof.
  unfold ownerSockets. rewrite list_elem_of_fmap. split.
  - intros [[k user] [-> Hin]]. apply elem_of_List_filter in Hin as [Hin Hf].
    apply elem_of_map_to_list in Hin. exists user. split; [done|].
    unfold is_owner_non_admin in Hf. cbn in Hf.
    apply andb_true_iff in Hf as [? Hna]. apply negb_true_iff in Hna. done.
  - intros (user & Hlk & Heq & Hna). exists (id, user). split; [done|].
    apply elem_of_List_filter. split; [by apply elem_of_map_to_list|].
    unfold is_owner_non_admin. cbn. by rewrite Heq, Hna.
Qed.

Lemma NoDup_ownerSockets ownerId : NoDup (ownerSockets st ownerId).
Proof. apply NoDup_fst_List_filter, NoDup_fst_map_to_list. Qed.

Lemma elem_of_owner_connections ownerId id :
  id ∈ owner_connections st ownerId ↔ id ∈ ownerSockets st ownerId.
Proof.
  unfold owner_connections. rewrite elem_of_dom, elem_of_ownerSockets.
  unfold is_Some. setoid_rewrite map_lookup_filter_Some.
  unfold is_owner_non_admin. cbn. split.
  - intros (user & Hlk & Hf). exists user. split; [done|].
    apply andb_true_iff in Hf as [? Hna]. apply negb_true_iff in Hna. done.
  - intros (user & Hlk & Heq & Hna). exists user. by rewrite Heq, Hna.
Qed.

Lemma length_ownerSockets ownerId :
  length (ownerSockets st ownerId) = size (owner_connections st ownerId).
Proof.
  unfold size at 1, set_size. cbn.
  apply Permutation_length, NoDup_Permutation.
  - apply NoDup_ownerSockets.
  - apply NoDup_elements.
  - intros id. rewrite elem_of_elements. symmetry.
    apply elem_of_owner_connections.
Qed.

Lemma elem_of_ownerSockets_status account_id ticketId id :
  id ∈ ownerSockets_status st account_id ticketId ↔
  ∃ user, activeUsers st !! id = Some user
          ∧ strict_eq (prop user "userId") account_id = true
          ∧ strict_eq (prop user "ticketId") ticketId = false.
Proof.
  unfold ownerSockets_status. rewrite list_elem_of_fmap. split.
  - intros [[k user] [-> Hin]]. apply elem_of_List_filter in Hin as [Hin Hf].
    apply elem_of_map_to_list in Hin. exists user. split; [done|].
    unfold is_owner_outside_room in Hf. cbn in Hf.
    apply andb_true_iff in Hf as [? Hna]. apply negb_true_iff in Hna. done.
  - intros (user & Hlk & Heq & Hna). exists (id, user). split; [done|].
    apply elem_of_List_filter. split; [by apply elem_of_map_to_list|].
    unfold is_owner_outside_room. cbn. by rewrite Heq, Hna.
Qed.

End Owners.

(** ** Reachable states *)

Lemma run_snoc evs ev : run (evs ++ [ev]) = step (run evs) ev.
Proof. unfold run. by rewrite fold_left_app. Qed.

Lemma reachable_initial : reachable initial.
Proof. by exists []. Qed.

Lemma reachable_step st ev : reachable st → reachable (step st ev).
Proof. intros [evs <-]. exists (evs ++ [ev])%list. apply run_snoc. Qed.

Lemma reachable_run evs : reachable (run evs).
Proof. by exists evs. Qed.

Lemma reachable_invariant (P : ServerState → Prop) :
  P initial →
  (∀ st ev, P st → P (step st ev)) →
  ∀ st, reachable st → P st.
Proof.
  intros Hinit Hstep st [evs <-].
  induction evs as [|ev evs IH] using rev_ind; [done|].
  rewrite run_snoc. by apply Hstep.
Qed.

Lemma disconnect_activeUsers id st :
  activeUsers (disconnect id st).1 = delete id (activeUsers st).
Proof.
  unfold disconnect. cbn [io_drop activeUsers].
  destruct (activeUsers st !! id) as [user|] eqn:E; cbn.
  - done.
  - symmetry. by apply delete_id.
Qed.

Lemma disconnect_io_sockets id st :
  io_sockets (disconnect id st).1 = io_sockets st ∖ {[id]}.
Proof.
  unfold disconnect. cbn [io_drop activeUsers].
  by destruct (activeUsers st !! id).
Qed.

Lemma disconnect_adminSockets id st :
  adminSockets (disconnect id st).1
  = match activeUsers st !! id with
    | Some user =>
        if truthy (prop user "isAdmin")
        then adminSockets st ∖ {[id]} else adminSockets st
    | None => adminSockets st
    end.
Proof.
  unfold disconnect. cbn [io_drop activeUsers].
  by destruct (activeUsers st !! id).
Qed.

(** Every registered connection is a connected socket. *)
Lemma registered_connected st :
  reachable st → ∀ id, is_Some (activeUsers st !! id) → id ∈ io_sockets st.
Proof.
  intros Hreach. pattern st. revert st Hreach. apply reachable_invariant.
  - intros id [? Hlk]. cbn in Hlk. by rewrite lookup_empty in Hlk.
  - intros st ev IH id Hsome. destruct ev; cbn [step] in *;
      try (by apply IH); try case_decide; try (by apply IH).
    + cbn. apply elem_of_union_r. by apply IH.
    + cbn in *. destruct (decide (id0 = id)) as [->|Hne]; [done|].
      rewrite lookup_insert_ne in Hsome by done. by apply IH.
    + cbn in *. destruct (decide (id0 = id)) as [->|Hne]; [done|].
      rewrite lookup_insert_ne in Hsome by done. by apply IH.
    + rewrite disconnect_activeUsers in Hsome. rewrite disconnect_io_sockets.
      destruct (decide (id0 = id)) as [->|Hne].
      * rewrite lookup_delete_eq in Hsome. by destruct Hsome.
      * rewrite lookup_delete_ne in Hsome by done.
        apply elem_of_difference. split; [by apply IH|].
        by intros ->%elem_of_singleton.
Qed.

(** A registered connection whose recorded [isAdmin] is true is in the
    admin set. *)
Lemma admin_registered_in_set st :
  reachable st →
  ∀ id user, activeUsers st !! id = Some user →
             truthy (prop user "isAdmin") = true → id ∈ adminSockets st.
Proof.
  intros Hreach. pattern st. revert st Hreach. apply reachable_invariant.
  - intros id user Hlk. cbn in Hlk. by rewrite lookup_empty in Hlk.
  - intros st ev IH id user Hlk Hadm. destruct ev; cbn [step] in *;
      try (by eapply IH); try case_decide; try (by eapply IH).
    + cbn in *. destruct (decide (id0 = id)) as [->|Hne].
      * rewrite lookup_insert_eq in Hlk. injection Hlk as <-.
        cbn in Hadm. destruct (truthy (prop data "isAdmin")); [|done].
        by apply elem_of_union_l, elem_of_singleton.
      * rewrite lookup_insert_ne in Hlk by done.
        destruct (truthy (prop data "isAdmin"));
          [apply elem_of_union_r|]; by eapply IH.
    + cbn in *. destruct (decide (id0 = id)) as [->|Hne].
      * rewrite lookup_insert_eq in Hlk. injection Hlk as <-.
        destruct (activeUsers st !! id) as [old|] eqn:E; cbn in Hadm.
        -- eapply IH; [exact E|]. unfold prop in *.
           by rewrite lookup_insert_ne in Hadm.
        -- unfold prop in Hadm. by rewrite lookup_insert_ne in Hadm.
      * rewrite lookup_insert_ne in Hlk by done. by eapply IH.
    + rewrite disconnect_activeUsers in Hlk. rewrite disconnect_adminSockets.
      destruct (decide (id0 = id)) as [->|Hne].
      * by rewrite lookup_delete_eq in Hlk.
      * rewrite lookup_delete_ne in Hlk by done.
        assert (id ∈ adminSockets st) by (by eapply IH).
        destruct (activeUsers st !! id0) as [u0|]; [|done].
        destruct (truthy (prop u0 "isAdmin")); [|done].
        apply elem_of_difference. split; [done|].
        by intros ->%elem_of_singleton.
Qed.

(** Only a [join_system] of the connection itself puts it in the admin
    set, and short of one its entry holds nothing but [ticketId]. *)
Lemma never_joined_system_state id evs :
  never_joined_system id evs →
  (id ∉ adminSockets (run evs))
  ∧ ∀ user, activeUsers (run evs) !! id = Some user →
            ∃ t, user = {["ticketId" := t]}.
Proof.
  induction evs as [|ev evs IH] using rev_ind.
  - intros _. split; [set_solver|]. intros user Hlk. cbn in Hlk.
    by rewrite lookup_empty in Hlk.
  - intros Hnever.
    assert (never_joined_system id evs) as Hprev.
    { intros data Hin. apply (Hnever data). apply elem_of_app. by left. }
    destruct (IH Hprev) as [Hadm Hentry]. rewrite run_snoc.
    destruct ev; cbn [step]; try done; try case_decide; try done.
    + assert (id0 ≠ id) as Hne.
      { intros ->. apply (Hnever data). apply elem_of_app. right.
        by apply list_elem_of_singleton. }
      cbn. split.
      * destruct (truthy (prop data "isAdmin")); [|done].
        apply not_elem_of_union. split; [|done].
        by intros ?%elem_of_singleton.
      * intros user Hlk. rewrite lookup_insert_ne in Hlk by done. eauto.
    + cbn. split; [done|]. intros user Hlk.
      destruct (decide (id0 = id)) as [->|Hne].
      * rewrite lookup_insert_eq in Hlk. injection Hlk as <-.
        destruct (activeUsers (run evs) !! id) as [old|] eqn:E; cbn.
        -- destruct (Hentry old eq_refl) as [t ->].
           exists (prop data "ticketId"). apply insert_singleton_eq.
        -- exists (prop data "ticketId"). apply insert_empty.
      * rewrite lookup_insert_ne in Hlk by done. eauto.
    + rewrite disconnect_activeUsers, disconnect_adminSockets. split.
      * destruct (activeUsers (run evs) !! id0) as [u0|]; [|done].
        destruct (truthy (prop u0 "isAdmin")); [|done].
        intros [? _]%elem_of_difference. done.
      * intros user Hlk. destruct (decide (id0 = id)) as [->|Hne].
        -- by rewrite lookup_delete_eq in Hlk.
        -- rewrite lookup_delete_ne in Hlk by done. eauto.
Qed.

(** ** The admin set *)

(** C1 (defect in the code).  The invariant "in [adminSockets] iff
    registered with role Admin" does not survive a second [join_system]
    that carries [isAdmin: false]: the connection stays in [adminSockets]
    while its registry entry says it is no admin, and after its disconnect
    the id is still in [adminSockets] with no registry entry left. *)
Theorem admin_set_stale_after_demotion :
  "a" ∈ adminSockets (run Scenario.demotion)
  ∧ (∃ user, activeUsers (run Scenario.demotion) !! "a" = Some user
             ∧ prop user "isAdmin" = Bool false)
  ∧ ¬ admin_set_consistent (run Scenario.demotion)
  ∧ "a" ∈ adminSockets (run (Scenario.demotion ++ [Disconnect "a"]))
  ∧ activeUsers (run (Scenario.demotion ++ [Disconnect "a"])) !! "a" = None
  ∧ ¬ admin_set_consistent (run (Scenario.demotion ++ [Disconnect "a"])).
Proof.
  assert ("a" ∈ adminSockets (run Scenario.demotion)) as Hin.
  { apply (bool_decide_unpack _). vm_compute. exact I. }
  assert ("a" ∈ adminSockets (run (Scenario.demotion ++ [Disconnect "a"])))
    as Hin'.
  { apply (bool_decide_unpack _). vm_compute. exact I. }
  assert (activeUsers (run Scenario.demotion) !! "a"
          = Some (literal [("userId", Num (Int 1)); ("username", Str "root");
                           ("isAdmin", Bool false); ("ticketId", Null)]))
    as Hentry.
  { vm_compute. exact eq_refl. }
  assert (activeUsers (run (Scenario.demotion ++ [Disconnect "a"])) !! "a"
          = None) as Hgone.
  { vm_compute. reflexivity. }
  split; [exact Hin|]. split.
  { eexists. split; [exact Hentry|]. reflexivity. }
  split.
  { intros Hcons. apply Hcons in Hin as (user & Hlk & Hadm).
    rewrite Hentry in Hlk. inversion Hlk as [Huser]. rewrite <- Huser in Hadm.
    discriminate Hadm. }
  split; [exact Hin'|]. split; [exact Hgone|].
  intros Hcons. apply Hcons in Hin' as (user & Hlk & _).
  rewrite Hgone in Hlk. discriminate.
Qed.

(** ** Owner lookup on a status change *)

(** C2 (defect in the code).  The owner lookup of the real-time
    [status_updated] path compares [user.userId] with [ticket.account_id]
    by [===] without [Number(...)]: a connection registered with userId
    ["42"] is not selected for a ticket owned by account [42] and is handed
    no [ticket_status_changed], whereas the lookup shared by the
    admin-message path and the REST path selects it. *)
Theorem status_updated_owner_lookup_not_normalized :
  ownerSockets (run Scenario.string_id) (Num (Int 42)) = ["u"]
  ∧ ownerSockets_status (run Scenario.string_id) (Num (Int 42)) (Num (Int 7)) = []
  ∧ received (run Scenario.string_id) "u" "ticket_status_changed"
      (emits_of (status_updated Scenario.now Scenario.status_change
                   (run Scenario.string_id) MemDB.sample)) = 0%nat
  ∧ received (run Scenario.string_id) "u" "ticket_status_changed"
      (emits_of (broadcast_status_update Scenario.now Scenario.status_change
                   (run Scenario.string_id) MemDB.sample)) = 1%nat
  ∧ received (run Scenario.string_id) "u" "new_admin_message"
      (emits_of (send_message "a" Scenario.admin_message
                   (run Scenario.string_id) MemDB.sample)) = 1%nat.
Proof. repeat split; vm_compute; reflexivity. Qed.

(** C3 (defect in the code).  On a real-time status change of ticket 7,
    the owner connection that joined room [ticket_7] and left it is handed
    no [ticket_status_changed] at all (its cached [ticketId] still excludes
    it from the owner delivery), and the owner connection that joined
    [ticket_7] and then [ticket_8] without leaving is handed the event
    twice (by the room broadcast and by the owner delivery). *)
Theorem status_updated_owner_delivery_not_once :
  ("u" ∉ room_members (run Scenario.left_room) "ticket_7")
  ∧ received (run Scenario.left_room) "u" "ticket_status_changed"
      (emits_of (status_updated Scenario.now Scenario.status_change
                   (run Scenario.left_room) MemDB.sample)) = 0%nat
  ∧ "u" ∈ room_members (run Scenario.two_rooms) "ticket_7"
  ∧ received (run Scenario.two_rooms) "u" "ticket_status_changed"
      (emits_of (status_updated Scenario.now Scenario.status_change
                   (run Scenario.two_rooms) MemDB.sample)) = 2%nat.
Proof.
  split; [|split; [|split]].
  - apply (bool_decide_unpack _). vm_compute. exact I.
  - vm_compute. reflexivity.
  - apply (bool_decide_unpack _). vm_compute. exact I.
  - vm_compute. reflexivity.
Qed.

(** The two cases in which the real-time path does deliver once: the owner
    in no room, and the owner in the room of the ticket only. *)
Example status_updated_owner_once :
  received (run Scenario.owner_and_admin) "u" "ticket_status_changed"
    (emits_of (status_updated Scenario.now Scenario.status_change
                 (run Scenario.owner_and_admin) MemDB.sample)) = 1%nat
  ∧ received (run (removelast Scenario.left_room)) "u" "ticket_status_changed"
      (emits_of (status_updated Scenario.now Scenario.status_change
                   (run (removelast Scenario.left_room)) MemDB.sample)) = 1%nat.
Proof. split; vm_compute; reflexivity. Qed.

(** ** Registration *)

(** C9 (counterexample).  After [connection] and before any
    [join_system], the connection is not in the registry and the health
    endpoint counts no active user. *)
Lemma connect_registers_nothing :
  "c" ∈ io_sockets (run [Connection "c"])
  ∧ ¬ is_Some (activeUsers (run [Connection "c"]) !! "c")
  ∧ prop (health Scenario.now (run [Connection "c"])) "activeUsers"
    = Num (Int 0).
Proof.
  split; [|split].
  - apply (bool_decide_unpack _). vm_compute. exact I.
  - intros [user Hlk]. vm_compute in Hlk. discriminate.
  - vm_compute. reflexivity.
Qed.

Lemma run_app evs later : run (evs ++ later) = fold_left step later (run evs).
Proof. unfold run. apply fold_left_app. Qed.

Lemma not_yet_joined_cons id ev evs :
  not_yet_joined id (ev :: evs) → not_yet_joined id evs.
Proof.
  intros Hnot data. destruct (Hnot data) as [Hs Ht].
  split; intros Hin; [apply Hs|apply Ht]; by apply list_elem_of_further.
Qed.

(** No event other than its own [join_system] or [join_ticket] gives a
    connection a registry entry. *)
Lemma unregistered_until_join id between st :
  activeUsers st !! id = None →
  not_yet_joined id between →
  activeUsers (fold_left step between st) !! id = None.
Proof.
  revert st. induction between as [|ev between IH]; intros st Hnone Hnot;
    [done|].
  cbn [fold_left]. apply IH; [|by eapply not_yet_joined_cons].
  destruct ev; cbn [step]; try done; try case_decide; try done.
  - assert (id0 ≠ id) as Hne.
    { intros ->. apply (proj1 (Hnot data)), list_elem_of_here. }
    cbn. by rewrite lookup_insert_ne.
  - assert (id0 ≠ id) as Hne.
    { intros ->. apply (proj2 (Hnot data)), list_elem_of_here. }
    cbn. by rewrite lookup_insert_ne.
  - rewrite disconnect_activeUsers. destruct (decide (id0 = id)) as [->|Hne].
    + apply lookup_delete_eq.
    + by rewrite lookup_delete_ne.
Qed.

(** C9 (as amended).  The connection handler creates no registry entry,
    and neither does anything that follows it short of the connection's
    own [join_system] or [join_ticket]: whatever the history before the
    connect and whatever events come in between, the connection has no
    entry and the health count is the number of the other registered
    connections.  Its [join_system] then creates the entry, fully
    populated, and the count goes up by one; a [join_ticket] that comes
    first creates an entry that holds [ticketId] alone. *)
Theorem registry_entry_created_by_join_system evs between id now :
  id ∉ io_sockets (run evs) →
  not_yet_joined id between →
  let st := run (evs ++ Connection id :: between) in
  activeUsers (run (evs ++ [Connection id])) = activeUsers (run evs)
  ∧ id ∈ io_sockets (run (evs ++ [Connection id]))
  ∧ activeUsers st !! id = None
  ∧ prop (health now st) "activeUsers"
    = Num (Int (Z.of_nat (size (delete id (activeUsers st)))))
  ∧ (id ∈ io_sockets st →
     ∀ data,
       activeUsers (step st (JoinSystem id data)) !! id
       = Some (literal [("userId", prop data "userId");
                        ("username", prop data "username");
                        ("isAdmin", Bool (truthy (prop data "isAdmin")));
                        ("ticketId", Null)])
       ∧ prop (health now (step st (JoinSystem id data))) "activeUsers"
         = Num (Int (Z.of_nat (S (size (activeUsers st))))))
  ∧ (id ∈ io_sockets st →
     ∀ data,
       activeUsers (step st (JoinTicket id data)) !! id
       = Some {["ticketId" := prop data "ticketId"]}).
Proof.
  intros Hnew Hnot st.
  assert (activeUsers (run evs) !! id = None) as Hbefore.
  { destruct (activeUsers (run evs) !! id) eqn:E; [|done].
    exfalso. apply Hnew. apply registered_connected; [apply reachable_run|].
    by rewrite E. }
  assert (activeUsers st !! id = None) as Hnone.
  { subst st. rewrite run_app. cbn [fold_left step].
    by apply unregistered_until_join. }
  split; [by rewrite run_snoc|]. split.
  { rewrite run_snoc. cbn. by apply elem_of_union_l, elem_of_singleton. }
  split; [exact Hnone|]. split.
  { cbn. by rewrite delete_id. }
  split.
  - intros Hconn data. cbn [step]. rewrite decide_True by done. cbn. split.
    + apply lookup_insert_eq.
    + by rewrite map_size_insert_None.
  - intros Hconn data. cbn [step]. rewrite decide_True by done. cbn.
    rewrite lookup_insert_eq, Hnone. reflexivity.
Qed.

Lemma registry_entry_created_by_join_system_witness :
  ("c" ∉ io_sockets (run []))
  ∧ not_yet_joined "c" Scenario.before_joining
  ∧ activeUsers (run ([] ++ Connection "c" :: Scenario.before_joining)) !! "c"
    = None
  ∧ prop (health Scenario.now
            (run ([] ++ Connection "c" :: Scenario.before_joining)))
      "activeUsers"
    = Num (Int 1)
  ∧ activeUsers
      (step (run ([] ++ Connection "c" :: Scenario.before_joining))
         (JoinSystem "c" (Scenario.identity (Num (Int 42)) "bob" false)))
      !! "c"
    = Some (literal [("userId", Num (Int 42)); ("username", Str "bob");
                     ("isAdmin", Bool false); ("ticketId", Null)])
  ∧ prop (health Scenario.now
            (step (run ([] ++ Connection "c" :: Scenario.before_joining))
               (JoinSystem "c" (Scenario.identity (Num (Int 42)) "bob" false))))
      "activeUsers"
    = Num (Int 2).
Proof.
  assert ("c" ∉ io_sockets (run [])) as Hnew.
  { apply (bool_decide_unpack _). vm_compute. exact I. }
  assert (not_yet_joined "c" Scenario.before_joining) as Hnot.
  { intros data. unfold Scenario.before_joining.
    rewrite !not_elem_of_cons. repeat split; try discriminate;
      apply not_elem_of_nil. }
  assert ("c" ∈ io_sockets
                  (run ([] ++ Connection "c" :: Scenario.before_joining)))
    as Hconn.
  { apply (bool_decide_unpack _). vm_compute. exact I. }
  destruct (registry_entry_created_by_join_system [] Scenario.before_joining
              "c" Scenario.now Hnew Hnot)
    as (_ & _ & Hnone & Hcount & Hjoin & _).
  destruct (Hjoin Hconn (Scenario.identity (Num (Int 42)) "bob" false))
    as [Hentry Hcount'].
  split; [exact Hnew|]. split; [exact Hnot|]. split; [exact Hnone|].
  split; [rewrite Hcount; vm_compute; reflexivity|].
  split; [exact Hentry|]. rewrite Hcount'. vm_compute. reflexivity.
Defined.

(** C10.  A [join_ticket] from a connection that sent no [join_system]
    leaves in the registry an entry for it that holds [ticketId] and
    nothing else; the [isAdmin] of the payload does not put the connection
    in [adminSockets], neither then nor later for as long as it sends no
    [join_system], and no admin broadcast is handed to it. *)
Theorem join_ticket_before_join_system evs id data :
  never_joined_system id evs → id ∈ io_sockets (run evs) →
  let st := step (run evs) (JoinTicket id data) in
  activeUsers st !! id = Some {["ticketId" := prop data "ticketId"]}
  ∧ prop {["ticketId" := prop data "ticketId"]} "userId" = Undefined
  ∧ prop {["ticketId" := prop data "ticketId"]} "username" = Undefined
  ∧ prop {["ticketId" := prop data "ticketId"]} "isAdmin" = Undefined
  ∧ (id ∉ adminSockets st)
  ∧ (∀ ev payload, received st id ev (notifyAdmins st ev payload) = 0%nat)
  ∧ ∀ later, never_joined_system id later →
      let st' := run (evs ++ JoinTicket id data :: later) in
      (id ∉ adminSockets st')
      ∧ ∀ ev payload, received st' id ev (notifyAdmins st' ev payload) = 0%nat.
Proof.
  intros Hnever Hconn st.
  destruct (never_joined_system_state id evs Hnever) as [Hadm Hentry].
  assert (∀ s, id ∉ adminSockets s →
               ∀ ev payload, received s id ev (notifyAdmins s ev payload) = 0%nat)
    as Hquiet.
  { intros s Hs ev payload. unfold notifyAdmins. apply received_absent.
    by rewrite elem_of_elements. }
  assert (id ∉ adminSockets st) as Hadm'.
  { subst st. cbn [step]. by rewrite decide_True. }
  split.
  { subst st. cbn [step]. rewrite decide_True by done. cbn.
    rewrite lookup_insert_eq. f_equal.
    destruct (activeUsers (run evs) !! id) as [old|] eqn:E; cbn.
    - destruct (Hentry old eq_refl) as [t ->]. apply insert_singleton_eq.
    - apply insert_empty. }
  do 3 (split; [done|]). split; [exact Hadm'|]. split; [by apply Hquiet|].
  intros later Hlater st'.
  assert (id ∉ adminSockets st') as Hout.
  { apply never_joined_system_state. intros d Hin.
    apply elem_of_app in Hin as [Hin|Hin]; [by apply (Hnever d)|].
    apply elem_of_cons in Hin as [Hin|Hin]; [done|by apply (Hlater d)]. }
  split; [exact Hout|]. by apply Hquiet.
Qed.

Lemma join_ticket_before_join_system_witness :
  never_joined_system "g" [Connection "g"]
  ∧ "g" ∈ io_sockets (run [Connection "g"])
  ∧ activeUsers (step (run [Connection "g"])
                   (JoinTicket "g" (literal [("ticketId", Num (Int 7));
                                             ("username", Str "eve");
                                             ("isAdmin", Bool true)])))
      !! "g"
    = Some {["ticketId" := Num (Int 7)]}
  ∧ "g" ∉ adminSockets
            (step (run [Connection "g"])
               (JoinTicket "g" (literal [("ticketId", Num (Int 7));
                                         ("username", Str "eve");
                                         ("isAdmin", Bool true)]))).
Proof.
  assert (never_joined_system "g" [Connection "g"]) as Hnever.
  { intros data Hin. apply list_elem_of_singleton in Hin. discriminate. }
  assert ("g" ∈ io_sockets (run [Connection "g"])) as Hconn.
  { apply (bool_decide_unpack _). vm_compute. exact I. }
  split; [exact Hnever|]. split; [exact Hconn|].
  destruct (join_ticket_before_join_system [Connection "g"] "g"
              (literal [("ticketId", Num (Int 7)); ("username", Str "eve");
                        ("isAdmin", Bool true)]) Hnever Hconn)
    as (Hentry & _ & _ & _ & Hadm & _).
  split; [exact Hentry|exact Hadm].
Defined.

(** ** The message pipeline *)

Section Pipelines.
Context {DB : Type} `{Storage DB}.

Lemma filter_is_event_sockets ev ev' p (l : list string) :
  ev' ≠ ev →
  List.filter (is_event ev) ((λ s, mkEmit (ToSocket s) ev' p) <$> l) = [].
Proof.
  intros Hne. induction l as [|s l IH]; [done|].
  rewrite fmap_cons. cbn [List.filter]. unfold is_event at 1. cbn [event].
  by rewrite bool_decide_eq_false_2.
Qed.

Lemma strict_eq_Str v s : strict_eq v (Str s) = true → v = Str s.
Proof.
  destruct v as [| |b|n|s']; try done. cbn.
  intros Heq. apply String.eqb_eq in Heq. by subst.
Qed.

Lemma filter_is_event_same ev t p es :
  List.filter (is_event ev) (mkEmit t ev p :: es)
  = mkEmit t ev p :: List.filter (is_event ev) es.
Proof.
  cbn [List.filter]. unfold is_event at 1. cbn [event].
  by rewrite bool_decide_eq_true_2.
Qed.

Lemma filter_is_event_other ev ev' t p es :
  ev' ≠ ev →
  List.filter (is_event ev) (mkEmit t ev' p :: es)
  = List.filter (is_event ev) es.
Proof.
  intros Hne. cbn [List.filter]. unfold is_event at 1. cbn [event].
  by rewrite bool_decide_eq_false_2.
Qed.

Ltac unfold_task :=
  unfold try_catch, bind, getConnection, execute_insert, query, first_row,
    emit, emit_all, ret, throw, emits_of, outcome_of, storage_of.

Lemma new_message_emits socket_id data st (db : DB) :
  List.filter (is_event "new_message")
    (emits_of (send_message socket_id data st db))
  = match persist_and_reread data db with
    | Some (_, message, _) =>
        [mkEmit (ToRoom (roomName (prop data "ticketId"))) "new_message"
           (new_message_payload message)]
    | None => []
    end.
Proof.
  unfold send_message, persist_and_reread, notifyAdmins, message_error.
  unfold_task.
  destruct (pool_getConnection db); [|done].
  destruct (insert_message db (insert_params data)) as [[result db1]|]; [|done].
  destruct (select_message db1 [prop result "insertId"]) as [[|message rest]|];
    [done| |done].
  destruct (strict_eq (prop data "sender") (Str "user"));
    destruct (strict_eq (prop data "sender") (Str "admin"));
    try destruct (select_ticket_owner db1 [prop data "ticketId"])
      as [[|ticket others]|];
    cbn [fst snd app];
    rewrite filter_is_event_same, ?List.filter_app,
      ?filter_is_event_sockets, ?filter_is_event_other by done; done.
Qed.

(** C4.  The [new_message] events of a [send_message] are none when the
    insert or the re-read fails, and otherwise the single room broadcast
    whose payload is built from the row read back from storage: [id],
    [username] (the joined [login]) and [created_at] are the row's.  Two
    payloads that give the insert the same parameters and name the same
    ticket, whatever [username] or timestamp they carry, produce the same
    [new_message]. *)
Theorem new_message_payload_from_reread_row socket_id data st (db : DB) :
  List.filter (is_event "new_message")
    (emits_of (send_message socket_id data st db))
  = match persist_and_reread data db with
    | Some (_, message, _) =>
        [mkEmit (ToRoom (roomName (prop data "ticketId"))) "new_message"
           (new_message_payload message)]
    | None => []
    end
  ∧ (∀ message,
       prop (new_message_payload message) "id" = prop message "id"
       ∧ prop (new_message_payload message) "username" = prop message "username"
       ∧ prop (new_message_payload message) "created_at"
         = prop message "created_at"
       ∧ dom (new_message_payload message)
         = list_to_set ["id"; "ticket_id"; "sender"; "username"; "text";
                        "image_url"; "created_at"])
  ∧ (∀ data',
       insert_params data' = insert_params data →
       prop data' "ticketId" = prop data "ticketId" →
       List.filter (is_event "new_message")
         (emits_of (send_message socket_id data' st db))
       = List.filter (is_event "new_message")
           (emits_of (send_message socket_id data st db))).
Proof.
  split; [apply new_message_emits|]. split.
  - intros message. repeat split; reflexivity.
  - intros data' Hparams Hticket. rewrite !new_message_emits.
    unfold persist_and_reread. by rewrite Hparams, Hticket.
Qed.

(** C8, the real-time half: when the insert is refused, the handler emits
    one [message_error], addressed to the socket of the sender, and
    nothing else. *)
Lemma send_message_insert_refused socket_id data st (db : DB) :
  insert_message db (insert_params data) = None →
  send_message socket_id data st db = (db, [message_error socket_id], Some tt).
Proof.
  intros Hins. unfold send_message. unfold_task.
  destruct (pool_getConnection db); [|done]. by rewrite Hins.
Qed.

(** C8, the REST half: a failed storage call gives the 500 response and
    no emit. *)
Lemma broadcast_status_update_storage_failure now req st (db : DB) :
  truthy (prop req "ticketId") = true →
  truthy (prop req "newStatus") = true →
  pool_getConnection db = false ∨ select_ticket db [prop req "ticketId"] = None →
  broadcast_status_update now req st db
  = (db, [],
     Some (mkResponse 500
             (literal [("success", Bool false);
                       ("error", Str "Failed to broadcast status update")]))).
Proof.
  intros Ht Hs Hfail. unfold broadcast_status_update. rewrite Ht, Hs.
  cbn [negb orb]. unfold_task.
  destruct (pool_getConnection db); [|done].
  destruct Hfail as [?|Hsel]; [done|]. by rewrite Hsel.
Qed.

(** C8.  When the insert of a [send_message] is refused the handler
    returns normally with the storage untouched and one emit, the
    [message_error] for the socket of the sender: no other socket is
    handed anything, and no [new_message], [new_user_message] or
    [new_admin_message] is handed to anyone.  The REST status endpoint
    answers a failed storage call with status 500 and [success: false],
    and emits nothing. *)
Theorem storage_failure_is_reported_to_requester socket_id data now req st
    (db : DB) :
  (insert_message db (insert_params data) = None →
   let r := send_message socket_id data st db in
   emits_of r = [mkEmit (ToSocket socket_id) "message_error"
                   (literal [("error", Str "Failed to send message")])]
   ∧ outcome_of r = Some tt
   ∧ storage_of r = db
   ∧ (∀ id ev, id ≠ socket_id → received st id ev (emits_of r) = 0%nat)
   ∧ (∀ id ev, ev ≠ "message_error" → received st id ev (emits_of r) = 0%nat)
   ∧ (socket_id ∈ io_sockets st →
      received st socket_id "message_error" (emits_of r) = 1%nat))
  ∧ (truthy (prop req "ticketId") = true →
     truthy (prop req "newStatus") = true →
     pool_getConnection db = false
     ∨ select_ticket db [prop req "ticketId"] = None →
     let r := broadcast_status_update now req st db in
     emits_of r = []
     ∧ ∃ res, outcome_of r = Some res
              ∧ status res = 500
              ∧ prop (body res) "success" = Bool false).
Proof.
  split.
  - intros Hins r. subst r. rewrite send_message_insert_refused by done.
    unfold emits_of, outcome_of, storage_of, message_error. cbn [fst snd].
    do 3 (split; [done|]).
    change [mkEmit (ToSocket socket_id) "message_error"
              (literal [("error", Str "Failed to send message")])]
      with ((λ s, mkEmit (ToSocket s) "message_error"
                    (literal [("error", Str "Failed to send message")]))
              <$> [socket_id]).
    split; [|split].
    + intros id ev Hne. apply received_absent.
      by intros ?%list_elem_of_singleton.
    + intros id ev Hne. apply received_other_event.
      apply Forall_singleton. cbn [event]. congruence.
    + intros Hconn. rewrite received_to_sockets by apply NoDup_singleton.
      rewrite decide_True; [done|]. split; [|done].
      by apply list_elem_of_singleton.
  - intros Ht Hs Hfail r. subst r.
    rewrite broadcast_status_update_storage_failure by done.
    split; [done|]. eexists. split; [done|]. split; reflexivity.
Qed.

(** A [send_message] whose row is not stored and read back ends in the
    [catch] of the handler. *)
Lemma send_message_not_persisted socket_id data st (db : DB) :
  persist_and_reread data db = None →
  emits_of (send_message socket_id data st db) = [message_error socket_id]
  ∧ outcome_of (send_message socket_id data st db) = Some tt.
Proof.
  unfold persist_and_reread, send_message. unfold_task.
  destruct (pool_getConnection db); [|done].
  destruct (insert_message db (insert_params data)) as [[result db1]|]; [|done].
  by destruct (select_message db1 [prop result "insertId"])
    as [[|message rest]|].
Qed.

(** C5 (as amended).  For a [send_message] whose [sender] is ['admin']:
    when the message is stored and read back and the owner lookup finds
    the ticket, owned by [account_id], a connection is handed
    [new_admin_message], once, exactly when it is a connected socket
    registered with a [userId] numerically equal to the owner's and a
    false [isAdmin]; every other connection, and so every admin connection
    of the owner, is handed none, and rooms play no part.  When the
    message is not stored and read back, the handler emits the
    [message_error] of the sender and nobody is handed
    [new_admin_message], whoever owns the ticket. *)
Theorem admin_message_reaches_owner_connections socket_id data st (db : DB) :
  reachable st →
  prop data "sender" = Str "admin" →
  (∀ messageId message db1 ticket others,
     persist_and_reread data db = Some (messageId, message, db1) →
     select_ticket_owner db1 [prop data "ticketId"] = Some (ticket :: others) →
     ∀ id,
       received st id "new_admin_message"
         (emits_of (send_message socket_id data st db))
       = (if decide (id ∈ owner_connections st (prop ticket "account_id"))
          then 1%nat else 0%nat)
       ∧ (id ∈ owner_connections st (prop ticket "account_id") ↔
          id ∈ io_sockets st
          ∧ ∃ user, activeUsers st !! id = Some user
                    ∧ strict_eq (Number (prop user "userId"))
                        (Number (prop ticket "account_id")) = true
                    ∧ truthy (prop user "isAdmin") = false))
  ∧ (persist_and_reread data db = None →
     emits_of (send_message socket_id data st db) = [message_error socket_id]
     ∧ ∀ id, received st id "new_admin_message"
               (emits_of (send_message socket_id data st db)) = 0%nat).
Proof.
  intros Hreach Hsender. split.
  - intros messageId message db1 ticket others Hstored Hticket id.
    assert (id ∈ owner_connections st (prop ticket "account_id") ↔
            id ∈ io_sockets st
            ∧ ∃ user, activeUsers st !! id = Some user
                      ∧ strict_eq (Number (prop user "userId"))
                          (Number (prop ticket "account_id")) = true
                      ∧ truthy (prop user "isAdmin") = false) as Hiff.
    { rewrite elem_of_owner_connections, elem_of_ownerSockets.
      split; [|tauto]. intros Hin. split; [|done].
      apply registered_connected; [done|].
      destruct Hin as (user & -> & _). by eexists. }
    split; [|exact Hiff].
    revert Hstored. unfold persist_and_reread, send_message. unfold_task.
    destruct (pool_getConnection db); [|done].
    destruct (insert_message db (insert_params data)) as [[result db0]|];
      [|done].
    destruct (select_message db0 [prop result "insertId"])
      as [[|message0 rest]|]; [done| |done].
    intros [= <- <- <-]. rewrite Hsender.
    cbn [strict_eq String.eqb Ascii.eqb Bool.eqb andb fst snd app].
    rewrite Hticket. cbn [fst snd app].
    rewrite received_cons. unfold receives at 1. cbn [event].
    rewrite bool_decide_eq_false_2 by done. cbn [andb Nat.add].
    rewrite ?app_nil_r.
    rewrite (received_to_sockets st id "new_admin_message" _ _
               (NoDup_ownerSockets st (prop ticket "account_id"))).
    apply decide_ext. rewrite Hiff, elem_of_ownerSockets. tauto.
  - intros Hfailed.
    destruct (send_message_not_persisted socket_id data st db Hfailed)
      as [-> _].
    split; [done|]. intros id. apply received_other_event.
    apply Forall_singleton. done.
Qed.

(** C6.  Behind a driver that refuses undefined bind parameters, a
    [send_message] without [ticketId] has its insert refused: the storage
    is left as it was, the only emit is the [message_error] for the socket
    of the sender, so no [new_message], [new_user_message] or
    [new_admin_message] is handed to anyone.  The parameters of the insert
    are the payload's [ticketId], [sender] and [userId] with an absent
    [text] replaced by the empty string and an absent [image_url] by
    [null], so neither absence puts [undefined] among them; and when the
    storage accepts the insert it is performed, the row read back going to
    the room of the ticket as [new_message]. *)
Theorem send_message_without_ticketId_is_rejected socket_id data st (db : DB) :
  refuses_undefined_binds insert_message →
  (prop data "ticketId" = Undefined →
   let r := send_message socket_id data st db in
   insert_message db (insert_params data) = None
   ∧ storage_of r = db
   ∧ emits_of r = [message_error socket_id]
   ∧ (∀ id ev, ev ≠ "message_error" → received st id ev (emits_of r) = 0%nat)
   ∧ (∀ id ev, id ≠ socket_id → received st id ev (emits_of r) = 0%nat))
  ∧ (insert_params data
     = [prop data "ticketId"; prop data "sender"; prop data "userId";
        (if truthy (prop data "text") then prop data "text" else Str "");
        (if truthy (prop data "image_url") then prop data "image_url"
         else Null)])
  ∧ (prop data "text" = Undefined → prop data "image_url" = Undefined →
     insert_params data
     = [prop data "ticketId"; prop data "sender"; prop data "userId";
        Str ""; Null])
  ∧ (prop data "ticketId" ≠ Undefined → prop data "sender" ≠ Undefined →
     prop data "userId" ≠ Undefined →
     Undefined ∉ insert_params data)
  ∧ (pool_getConnection db = true →
     ∀ result db1,
       insert_message db (insert_params data) = Some (result, db1) →
       storage_of (send_message socket_id data st db) = db1
       ∧ ∀ message rest,
           select_message db1 [prop result "insertId"] = Some (message :: rest) →
           mkEmit (ToRoom (roomName (prop data "ticketId"))) "new_message"
             (new_message_payload message)
           ∈ emits_of (send_message socket_id data st db)).
Proof.
  intros Hdriver. split; [|split; [|split; [|split]]].
  - intros Hticket r. subst r.
    assert (insert_message db (insert_params data) = None) as Hins.
    { apply Hdriver. unfold insert_params. rewrite Hticket.
      apply list_elem_of_here. }
    rewrite send_message_insert_refused by done.
    unfold emits_of, outcome_of, storage_of, message_error. cbn [fst snd].
    do 3 (split; [done|]). split.
    + intros id ev Hne. apply received_other_event.
      apply Forall_singleton. cbn [event]. congruence.
    + intros id ev Hne.
      change [mkEmit (ToSocket socket_id) "message_error"
                (literal [("error", Str "Failed to send message")])]
        with ((λ s, mkEmit (ToSocket s) "message_error"
                      (literal [("error", Str "Failed to send message")]))
                <$> [socket_id]).
      apply received_absent. by intros ?%list_elem_of_singleton.
  - done.
  - intros Ht Hi. unfold insert_params. by rewrite Ht, Hi.
  - intros Hticket Hsender Huser. unfold insert_params, or.
    rewrite !not_elem_of_cons. repeat split; try congruence.
    + destruct (truthy (prop data "text")) eqn:E; [|done].
      intros Heq. by rewrite <- Heq in E.
    + destruct (truthy (prop data "image_url")) eqn:E; [|done].
      intros Heq. by rewrite <- Heq in E.
    + apply not_elem_of_nil.
  - intros Hpool result db1 Hins. split.
    + unfold send_message. unfold_task. rewrite Hpool, Hins.
      destruct (select_message db1 [prop result "insertId"])
        as [[|message rest]|]; [done| |done].
      destruct (strict_eq (prop data "sender") (Str "user"));
        destruct (strict_eq (prop data "sender") (Str "admin"));
        try destruct (select_ticket_owner db1 [prop data "ticketId"])
          as [[|ticket others]|]; done.
    + intros message rest Hsel.
      assert (mkEmit (ToRoom (roomName (prop data "ticketId"))) "new_message"
                (new_message_payload message)
              ∈ List.filter (is_event "new_message")
                  (emits_of (send_message socket_id data st db))) as Hin.
      { rewrite new_message_emits. unfold persist_and_reread.
        rewrite Hpool, Hins, Hsel. apply list_elem_of_here. }
      by apply elem_of_List_filter in Hin as [Hin _].
Qed.

(** C7.  [POST /api/broadcast-status-update]: without a [ticketId] or a
    [newStatus] the answer is 400 with [success: false] and nothing is
    emitted; when no ticket is found the answer is 404 with
    [success: false] and nothing is emitted; when the ticket is found the
    answer is 200 with [success: true] and [notified] the number of
    non-admin connections of the owner, every emit is a
    [ticket_status_changed] addressed to one of those connections (no
    room is addressed), and each of them is handed the event once while no
    other connection is handed anything.  The non-admin connections of the
    owner are the connected sockets registered with a [userId] numerically
    equal to the [account_id] of the ticket and a false [isAdmin]. *)
Theorem broadcast_status_update_responses now req st (db : DB) :
  let r := broadcast_status_update now req st db in
  (truthy (prop req "ticketId") = false ∨ truthy (prop req "newStatus") = false →
   emits_of r = []
   ∧ ∃ res, outcome_of r = Some res ∧ status res = 400
            ∧ prop (body res) "success" = Bool false)
  ∧ (truthy (prop req "ticketId") = true →
     truthy (prop req "newStatus") = true →
     pool_getConnection db = true →
     select_ticket db [prop req "ticketId"] = Some [] →
     emits_of r = []
     ∧ ∃ res, outcome_of r = Some res ∧ status res = 404
              ∧ prop (body res) "success" = Bool false)
  ∧ (∀ ticket others,
       truthy (prop req "ticketId") = true →
       truthy (prop req "newStatus") = true →
       pool_getConnection db = true →
       select_ticket db [prop req "ticketId"] = Some (ticket :: others) →
       reachable st →
       (∃ res, outcome_of r = Some res ∧ status res = 200
               ∧ prop (body res) "success" = Bool true
               ∧ prop (body res) "notified"
                 = Num (Int (Z.of_nat
                    (size (owner_connections st (prop ticket "account_id"))))))
       ∧ Forall (λ e, event e = "ticket_status_changed"
                      ∧ ∃ id, target e = ToSocket id
                              ∧ id ∈ owner_connections st
                                       (prop ticket "account_id"))
           (emits_of r)
       ∧ (∀ id, received st id "ticket_status_changed" (emits_of r)
                = if decide (id ∈ owner_connections st
                                    (prop ticket "account_id"))
                  then 1%nat else 0%nat)
       ∧ (∀ id ev, ev ≠ "ticket_status_changed" →
                   received st id ev (emits_of r) = 0%nat)
       ∧ (∀ id, id ∈ owner_connections st (prop ticket "account_id") ↔
                id ∈ io_sockets st
                ∧ ∃ user, activeUsers st !! id = Some user
                          ∧ strict_eq (Number (prop user "userId"))
                              (Number (prop ticket "account_id")) = true
                          ∧ truthy (prop user "isAdmin") = false)).
Proof.
  intros r. subst r. split; [|split].
  - intros Hmissing. unfold broadcast_status_update.
    assert (negb (truthy (prop req "ticketId"))
            || negb (truthy (prop req "newStatus")) = true) as ->.
    { destruct Hmissing as [-> | ->]; [done|]. apply orb_true_r. }
    split; [done|]. eexists. split; [done|]. split; reflexivity.
  - intros Ht Hs Hpool Hsel. unfold broadcast_status_update.
    rewrite Ht, Hs. cbn [negb orb]. unfold_task. rewrite Hpool, Hsel.
    split; [done|]. eexists. split; [done|]. split; reflexivity.
  - intros ticket others Ht Hs Hpool Hsel Hreach.
    unfold broadcast_status_update.
    rewrite Ht, Hs. cbn [negb orb]. unfold_task. rewrite Hpool, Hsel.
    cbn [fst snd app]. rewrite ?app_nil_r.
    split; [|split; [|split; [|split]]].
    + eexists. split; [done|]. split; [done|]. split; [reflexivity|].
      rewrite <- length_ownerSockets. reflexivity.
    + apply Forall_fmap, Forall_forall. intros id Hin. cbn. split; [done|].
      exists id. split; [done|]. by apply elem_of_owner_connections.
    + intros id.
      rewrite received_to_sockets by apply NoDup_ownerSockets.
      apply decide_ext. rewrite elem_of_owner_connections. split; [tauto|].
      intros Hin. split; [done|]. apply registered_connected; [done|].
      apply elem_of_ownerSockets in Hin as (user & -> & _). by eexists.
    + intros id ev Hne. apply received_other_event.
      apply Forall_fmap, Forall_forall. intros s _. cbn. congruence.
    + intros id. rewrite elem_of_owner_connections, elem_of_ownerSockets.
      split; [|tauto]. intros Hin. split; [|done].
      apply registered_connected; [done|].
      destruct Hin as (user & -> & _). by eexists.
Qed.

End Pipelines.

(** ** The pipelines on the in-memory storage *)

Lemma new_message_payload_from_reread_row_witness :
  insert_params Scenario.admin_message_forged
  = insert_params Scenario.admin_message
  ∧ prop Scenario.admin_message_forged "ticketId"
    = prop Scenario.admin_message "ticketId"
  ∧ List.filter (is_event "new_message")
      (emits_of (send_message "a" Scenario.admin_message_forged
                   (run Scenario.owner_and_admin) MemDB.sample))
    = List.filter (is_event "new_message")
        (emits_of (send_message "a" Scenario.admin_message
                     (run Scenario.owner_and_admin) MemDB.sample)).
Proof.
  assert (insert_params Scenario.admin_message_forged
          = insert_params Scenario.admin_message) as Hparams.
  { vm_compute. reflexivity. }
  assert (prop Scenario.admin_message_forged "ticketId"
          = prop Scenario.admin_message "ticketId") as Hticket.
  { vm_compute. reflexivity. }
  split; [exact Hparams|]. split; [exact Hticket|].
  destruct (new_message_payload_from_reread_row "a" Scenario.admin_message
              (run Scenario.owner_and_admin) MemDB.sample) as (_ & _ & Hsame).
  exact (Hsame Scenario.admin_message_forged Hparams Hticket).
Defined.

(** The broadcast of the forged message names the sender by the login of
    the account and carries the storage's timestamp. *)
Example forged_message_broadcast :
  (λ e, (prop (payload e) "username", prop (payload e) "created_at"))
    <$> List.filter (is_event "new_message")
          (emits_of (send_message "a" Scenario.admin_message_forged
                       (run Scenario.owner_and_admin) MemDB.sample))
  = [(Str "root", Str "2024-01-01 00:00:00")].
Proof. vm_compute. reflexivity. Qed.

(** C5 (counterexample).  An admin message on ticket 7, which exists and
    is owned by account 42, while the owner is connected and registered as
    a plain user: the message carries a [userId] that has no row in
    [account], so the row is inserted but the re-read through the join is
    empty, the handler ends in its [catch], and the owner is handed no
    [new_admin_message]. *)
Lemma admin_message_of_unknown_account_reaches_no_owner :
  prop Scenario.admin_message_unknown_account "sender" = Str "admin"
  ∧ fmap (M := list) (λ ticket : obj, prop ticket "account_id")
      <$> select_ticket_owner MemDB.sample
            [prop Scenario.admin_message_unknown_account "ticketId"]
    = Some [Num (Int 42)]
  ∧ "u" ∈ io_sockets (run Scenario.owner_and_admin)
  ∧ activeUsers (run Scenario.owner_and_admin) !! "u"
    = Some (literal [("userId", Num (Int 42)); ("username", Str "bob");
                     ("isAdmin", Bool false); ("ticketId", Null)])
  ∧ "u" ∈ owner_connections (run Scenario.owner_and_admin) (Num (Int 42))
  ∧ emits_of (send_message "a" Scenario.admin_message_unknown_account
                (run Scenario.owner_and_admin) MemDB.sample)
    = [message_error "a"]
  ∧ received (run Scenario.owner_and_admin) "u" "new_admin_message"
      (emits_of (send_message "a" Scenario.admin_message_unknown_account
                   (run Scenario.owner_and_admin) MemDB.sample)) = 0%nat
  ∧ length (MemDB.ticket_messages
              (storage_of (send_message "a"
                             Scenario.admin_message_unknown_account
                             (run Scenario.owner_and_admin) MemDB.sample)))
    = 1%nat.
Proof.
  split; [reflexivity|]. split; [vm_compute; reflexivity|].
  split; [apply (bool_decide_unpack _); vm_compute; exact I|].
  split; [vm_compute; reflexivity|].
  split; [apply (bool_decide_unpack _); vm_compute; exact I|].
  repeat split; vm_compute; reflexivity.
Qed.

Lemma admin_message_reaches_owner_connections_witness :
  reachable (run Scenario.owner_and_admin)
  ∧ prop Scenario.admin_message "sender" = Str "admin"
  ∧ received (run Scenario.owner_and_admin) "u" "new_admin_message"
      (emits_of (send_message "a" Scenario.admin_message
                   (run Scenario.owner_and_admin) MemDB.sample)) = 1%nat
  ∧ received (run Scenario.owner_and_admin) "a" "new_admin_message"
      (emits_of (send_message "a" Scenario.admin_message
                   (run Scenario.owner_and_admin) MemDB.sample)) = 0%nat
  ∧ persist_and_reread Scenario.admin_message_unknown_account MemDB.sample
    = None
  ∧ received (run Scenario.owner_and_admin) "u" "new_admin_message"
      (emits_of (send_message "a" Scenario.admin_message_unknown_account
                   (run Scenario.owner_and_admin) MemDB.sample)) = 0%nat.
Proof.
  destruct (admin_message_reaches_owner_connections "a"
              Scenario.admin_message (run Scenario.owner_and_admin)
              MemDB.sample (reachable_run Scenario.owner_and_admin) eq_refl)
    as [Hstored _].
  destruct (admin_message_reaches_owner_connections "a"
              Scenario.admin_message_unknown_account
              (run Scenario.owner_and_admin)
              MemDB.sample (reachable_run Scenario.owner_and_admin) eq_refl)
    as [_ Hfailed].
  assert (persist_and_reread Scenario.admin_message_unknown_account
            MemDB.sample = None) as Hnone.
  { vm_compute. reflexivity. }
  split; [apply reachable_run|]. split; [reflexivity|].
  edestruct Hstored as [Hu _]; [reflexivity..|].
  edestruct Hstored as [Ha _]; [reflexivity..|].
  split; [rewrite Hu; vm_compute; reflexivity|].
  split; [rewrite Ha; vm_compute; reflexivity|].
  split; [exact Hnone|]. exact (proj2 (Hfailed Hnone) "u").
Defined.

(** The owner lookup compares as numbers: a connection registered with
    [userId] ['42.0'] or ['0x2a'] is a connection of account 42, one
    registered with ['42px'] is not. *)
Example owner_lookup_compares_numbers :
  ownerSockets
    (run [Connection "u";
          JoinSystem "u" (Scenario.identity (Str "42.0") "bob" false);
          Connection "v";
          JoinSystem "v" (Scenario.identity (Str "0x2a") "bob" false);
          Connection "w";
          JoinSystem "w" (Scenario.identity (Str "42px") "bob" false)])
    (Num (Int 42))
  ≡ₚ ["u"; "v"].
Proof. vm_compute. reflexivity. Qed.

(** The in-memory storage sits behind such a driver. *)
Lemma existsb_strict_eq_Undefined params :
  Undefined ∈ params → existsb (strict_eq Undefined) params = true.
Proof.
  intros Hin. apply existsb_exists. exists Undefined. split; [|done].
  by apply list_elem_of_In.
Qed.

Lemma MemDB_insert_refuses_undefined :
  refuses_undefined_binds (insert_message (DB := MemDB.t)).
Proof.
  intros db params Hin. cbn. unfold MemDB.insert, MemDB.bound.
  rewrite (existsb_strict_eq_Undefined params Hin), !andb_false_r.
  by destruct params as [|? [|? [|? [|? [|? [|? ?]]]]]].
Qed.

Lemma MemDB_selects_refuse_undefined :
  refuses_undefined_binds (select_message (DB := MemDB.t))
  ∧ refuses_undefined_binds (select_ticket_owner (DB := MemDB.t))
  ∧ refuses_undefined_binds (select_ticket (DB := MemDB.t)).
Proof.
  repeat split; intros db params Hin; cbn;
    unfold MemDB.message_by_id, MemDB.ticket_owner_by_id, MemDB.ticket_by_id,
      MemDB.bound;
    rewrite (existsb_strict_eq_Undefined params Hin), !andb_false_r;
    by destruct params as [|? [|? ?]].
Qed.

Lemma send_message_without_ticketId_is_rejected_witness :
  refuses_undefined_binds (insert_message (DB := MemDB.t))
  (* no ticketId: refused, nothing stored, nothing broadcast *)
  ∧ (prop Scenario.message_without_ticket "ticketId" = Undefined
     ∧ storage_of (send_message "u" Scenario.message_without_ticket
                     (run Scenario.owner_and_admin) MemDB.sample)
       = MemDB.sample
     ∧ emits_of (send_message "u" Scenario.message_without_ticket
                   (run Scenario.owner_and_admin) MemDB.sample)
       = [message_error "u"])
  (* no text, no image: stored as the empty string and null *)
  ∧ (prop Scenario.message_without_text "text" = Undefined
     ∧ prop Scenario.message_without_text "image_url" = Undefined
     ∧ insert_params Scenario.message_without_text
       = [Num (Int 7); Str "user"; Num (Int 42); Str ""; Null]
     ∧ (Undefined ∉ insert_params Scenario.message_without_text)
     ∧ ∃ result db1,
         insert_message MemDB.sample
           (insert_params Scenario.message_without_text)
         = Some (result, db1)
         ∧ storage_of (send_message "u" Scenario.message_without_text
                         (run Scenario.owner_and_admin) MemDB.sample) = db1
         ∧ (λ row, (prop row "text", prop row "image_url"))
             <$> MemDB.ticket_messages db1
           = [(Str "", Null)]).
Proof.
  split; [exact MemDB_insert_refuses_undefined|]. split.
  - destruct (send_message_without_ticketId_is_rejected "u"
                Scenario.message_without_ticket
                (run Scenario.owner_and_admin) MemDB.sample
                MemDB_insert_refuses_undefined) as (Hreject & _).
    destruct (Hreject eq_refl) as (_ & Hdb & Hemits & _).
    split; [reflexivity|]. split; [exact Hdb|exact Hemits].
  - destruct (send_message_without_ticketId_is_rejected "u"
                Scenario.message_without_text
                (run Scenario.owner_and_admin) MemDB.sample
                MemDB_insert_refuses_undefined)
      as (_ & _ & Hnorm & Hbound & Hstore).
    split; [reflexivity|]. split; [reflexivity|].
    split; [exact (Hnorm eq_refl eq_refl)|]. split.
    { apply Hbound; discriminate. }
    eexists _, _. split; [reflexivity|]. split.
    + exact (proj1 (Hstore eq_refl _ _ eq_refl)).
    + vm_compute. reflexivity.
Defined.

Lemma broadcast_status_update_responses_witness :
  (* no newStatus *)
  (truthy (prop (literal [("ticketId", Num (Int 7))]) "newStatus") = false
   ∧ status <$> outcome_of (broadcast_status_update Scenario.now
                              (literal [("ticketId", Num (Int 7))])
                              (run Scenario.owner_and_admin) MemDB.sample)
     = Some 400)
  (* no such ticket *)
  ∧ (select_ticket MemDB.sample [Num (Int 99)] = Some []
     ∧ status <$> outcome_of (broadcast_status_update Scenario.now
                                (literal [("ticketId", Num (Int 99));
                                          ("newStatus", Str "closed")])
                                (run Scenario.owner_and_admin) MemDB.sample)
       = Some 404)
  (* ticket 7, owned by account 42 *)
  ∧ (reachable (run Scenario.owner_and_admin)
     ∧ received (run Scenario.owner_and_admin) "u" "ticket_status_changed"
         (emits_of (broadcast_status_update Scenario.now Scenario.status_change
                      (run Scenario.owner_and_admin) MemDB.sample)) = 1%nat
     ∧ received (run Scenario.owner_and_admin) "a" "ticket_status_changed"
         (emits_of (broadcast_status_update Scenario.now Scenario.status_change
                      (run Scenario.owner_and_admin) MemDB.sample)) = 0%nat).
Proof.
  split; [|split].
  - split; [reflexivity|].
    destruct (broadcast_status_update_responses Scenario.now
                (literal [("ticketId", Num (Int 7))])
                (run Scenario.owner_and_admin) MemDB.sample) as (H400 & _ & _).
    destruct (H400 (or_intror eq_refl)) as (_ & res & Hout & Hst & _).
    rewrite Hout. exact (f_equal Some Hst).
  - split; [reflexivity|].
    destruct (broadcast_status_update_responses Scenario.now
                (literal [("ticketId", Num (Int 99));
                          ("newStatus", Str "closed")])
                (run Scenario.owner_and_admin) MemDB.sample) as (_ & H404 & _).
    destruct (H404 eq_refl eq_refl eq_refl eq_refl) as (_ & res & Hout & Hst & _).
    rewrite Hout. exact (f_equal Some Hst).
  - split; [apply reachable_run|].
    destruct (broadcast_status_update_responses Scenario.now
                Scenario.status_change
                (run Scenario.owner_and_admin) MemDB.sample) as (_ & _ & H200).
    destruct (H200 _ _ eq_refl eq_refl eq_refl eq_refl
                (reachable_run Scenario.owner_and_admin))
      as (_ & _ & Hcount & _).
    split; rewrite Hcount; vm_compute; reflexivity.
Defined.

Lemma storage_failure_is_reported_to_requester_witness :
  insert_message MemDB.refusing_writes (insert_params Scenario.admin_message)
  = None
  ∧ emits_of (send_message "a" Scenario.admin_message
                (run Scenario.owner_and_admin) MemDB.refusing_writes)
    = [mkEmit (ToSocket "a") "message_error"
         (literal [("error", Str "Failed to send message")])]
  ∧ pool_getConnection MemDB.offline = false
  ∧ status <$> outcome_of (broadcast_status_update Scenario.now
                             Scenario.status_change
                             (run Scenario.owner_and_admin) MemDB.offline)
    = Some 500.
Proof.
  destruct (storage_failure_is_reported_to_requester "a"
              Scenario.admin_message Scenario.now Scenario.status_change
              (run Scenario.owner_and_admin) MemDB.refusing_writes)
    as [Hws _].
  destruct (storage_failure_is_reported_to_requester "a"
              Scenario.admin_message Scenario.now Scenario.status_change
              (run Scenario.owner_and_admin) MemDB.offline)
    as [_ Hrest].
  split; [reflexivity|]. split; [exact (proj1 (Hws eq_refl))|].
  split; [reflexivity|].
  destruct (Hrest eq_refl eq_refl (or_introl eq_refl)) as (_ & res & Hout & Hst & _).
  rewrite Hout. exact (f_equal Some Hst).
Defined.

(** * Further properties of the code *)

(** ** The SMS service: phone numbers *)

Section SmsStrings.
Import Sms.

Lemma append_cons a s1 s2 : String a s1 ++ s2 = String a (s1 ++ s2).
Proof. reflexivity. Qed.

Lemma append_nil s : "" ++ s = s.
Proof. reflexivity. Qed.

Lemma append_assoc s1 s2 s3 : (s1 ++ s2) ++ s3 = s1 ++ (s2 ++ s3).
Proof.
  induction s1 as [|a s1 IH]; [done|]. rewrite !append_cons. by rewrite IH.
Qed.

Lemma all_chars_app p s1 s2 :
  all_chars p (s1 ++ s2) = all_chars p s1 && all_chars p s2.
Proof.
  induction s1 as [|a s1 IH]; [done|].
  rewrite append_cons. cbn [all_chars]. rewrite IH. by rewrite andb_assoc.
Qed.

Lemma keep_digits_all_digits s : all_chars is_digit (keep_digits s) = true.
Proof.
  induction s as [|a s IH]; [done|]. cbn.
  destruct (is_digit a) eqn:E; [|done]. cbn. by rewrite E.
Qed.

Lemma substring_from_all_chars p n s :
  all_chars p s = true → all_chars p (substring_from n s) = true.
Proof.
  revert s. induction n as [|n IH]; intros [|a s]; cbn; try done.
  intros [_ Hs]%andb_true_iff. by apply IH.
Qed.

Lemma keep_digits_of_digits s :
  all_chars is_digit s = true → keep_digits s = s.
Proof.
  induction s as [|a s IH]; [done|]. cbn.
  intros [Ha Hs]%andb_true_iff. rewrite Ha. by rewrite IH.
Qed.

Lemma keep_digits_app s1 s2 :
  keep_digits (s1 ++ s2) = keep_digits s1 ++ keep_digits s2.
Proof.
  induction s1 as [|a s1 IH]; [done|]. rewrite append_cons.
  cbn [keep_digits]. destruct (is_digit a); by rewrite IH.
Qed.

Lemma length_substring_from n s :
  String.length (substring_from n s) = (String.length s - n)%nat.
Proof.
  revert s. induction n as [|n IH]; intros [|a s]; cbn; try done;
    try apply IH; lia.
Qed.


(** X1.  Whatever the text, [cleanPhoneNumber] returns decimal digits
    only, at most as many as the text has and at most two fewer. *)
Theorem cleanPhoneNumber_digits_only phone :
  all_chars is_digit (cleanPhoneNumber phone) = true
  ∧ (String.length (cleanPhoneNumber phone)
     ≤ String.length (keep_digits phone))%nat
  ∧ (String.length (keep_digits phone) - 2
     ≤ String.length (cleanPhoneNumber phone))%nat.
Proof.
  unfold cleanPhoneNumber. pose proof (keep_digits_all_digits phone) as Hd.
  destruct (startsWith (keep_digits phone) "90");
    [|destruct (startsWith (keep_digits phone) "0")];
    rewrite ?length_substring_from;
    (split; [by try apply substring_from_all_chars|lia]).
Qed.

(** X2.  The ways of writing one national number agree: for a number [n]
    of digits that begins neither with [0] nor with [90], a text whose
    digits are [n], [0 n] or [90 n] (so also [+90 n], with any spaces,
    brackets or dashes) is cleaned to [n]. *)
Theorem cleanPhoneNumber_formats_agree phone n :
  startsWith n "0" = false → startsWith n "90" = false →
  keep_digits phone = n ∨ keep_digits phone = "0" ++ n
  ∨ keep_digits phone = "90" ++ n →
  cleanPhoneNumber phone = n.
Proof.
  intros H0 H90 Hphone. unfold cleanPhoneNumber.
  destruct Hphone as [-> | [-> | ->]];
    rewrite ?append_cons, ?append_nil.
  - by rewrite H90, H0.
  - cbn. reflexivity.
  - cbn. reflexivity.
Qed.

Lemma cleanPhoneNumber_formats_agree_witness :
  cleanPhoneNumber "+90 (532) 123-45-67" = "5321234567"
  ∧ cleanPhoneNumber "0532 123 45 67" = "5321234567"
  ∧ cleanPhoneNumber "532.123.45.67" = "5321234567".
Proof.
  split; [|split].
  - apply (cleanPhoneNumber_formats_agree _ "5321234567");
      [reflexivity..|]. right. right. reflexivity.
  - apply (cleanPhoneNumber_formats_agree _ "5321234567");
      [reflexivity..|]. right. left. reflexivity.
  - apply (cleanPhoneNumber_formats_agree _ "5321234567");
      [reflexivity..|]. left. reflexivity.
Defined.

(** X3.  Only one prefix is removed, and [90] is removed before [0] is
    looked for: a number written with the international [00 90], or with
    the country code followed by the trunk [0], keeps a leading [0]; and
    a number whose own digits begin with [90] loses them. *)
Theorem cleanPhoneNumber_strips_one_prefix phone rest :
  (keep_digits phone = "0090" ++ rest → cleanPhoneNumber phone = "090" ++ rest)
  ∧ (keep_digits phone = "900" ++ rest → cleanPhoneNumber phone = "0" ++ rest)
  ∧ (keep_digits phone = "90" ++ rest →
     cleanPhoneNumber phone = rest
     ∧ String.length (cleanPhoneNumber phone)
       = (String.length (keep_digits phone) - 2)%nat).
Proof.
  unfold cleanPhoneNumber.
  split; [|split]; intros ->; rewrite ?append_cons, ?append_nil; cbn;
    try reflexivity.
  split; [reflexivity|]. lia.
Qed.

Lemma cleanPhoneNumber_strips_one_prefix_witness :
  cleanPhoneNumber "0090 532 123 45 67" = "0905321234567"
  ∧ cleanPhoneNumber "+90 0532 123 45 67" = "05321234567"
  ∧ cleanPhoneNumber "9051234567" = "51234567".
Proof.
  split; [|split].
  - exact (proj1 (cleanPhoneNumber_strips_one_prefix
                    "0090 532 123 45 67" "5321234567") eq_refl).
  - exact (proj1 (proj2 (cleanPhoneNumber_strips_one_prefix
                           "+90 0532 123 45 67" "5321234567")) eq_refl).
  - exact (proj1 (proj2 (proj2 (cleanPhoneNumber_strips_one_prefix
                                  "9051234567" "51234567")) eq_refl)).
Defined.

End SmsStrings.

(** ** The SMS service: XML escaping *)

Section SmsEscape.
Import Sms.

Lemma replace_all_app c b s1 s2 :
  replace_all c b (s1 ++ s2) = replace_all c b s1 ++ replace_all c b s2.
Proof.
  induction s1 as [|a s1 IH]; [done|]. rewrite append_cons.
  cbn [replace_all]. rewrite IH. destruct (Ascii.eqb a c).
  - by rewrite append_assoc.
  - by rewrite append_cons.
Qed.

Lemma escapeXml_cons a r : escapeXml (String a r) = escape_char a ++ escapeXml r.
Proof.
  unfold escapeXml, escape_char. cbn [replace_all].
  destruct (Ascii.eqb a "&") eqn:E1.
  { rewrite !replace_all_app. reflexivity. }
  cbn [replace_all]. destruct (Ascii.eqb a "<") eqn:E2.
  { rewrite !replace_all_app. reflexivity. }
  cbn [replace_all]. destruct (Ascii.eqb a ">") eqn:E3.
  { rewrite !replace_all_app. reflexivity. }
  cbn [replace_all]. destruct (Ascii.eqb a quot) eqn:E4.
  { rewrite !replace_all_app. reflexivity. }
  cbn [replace_all]. destruct (Ascii.eqb a "'") eqn:E5; reflexivity.
Qed.

Lemma escape_char_cases c :
  (is_special c = true
   ∧ (c = "&" ∨ c = "<" ∨ c = ">" ∨ c = quot ∨ c = "'")%char)
  ∨ (is_special c = false ∧ escape_char c = String c EmptyString).
Proof.
  unfold is_special, escape_char.
  destruct (Ascii.eqb c "&") eqn:E1;
    [apply Ascii.eqb_eq in E1; left; split; [done|tauto]|].
  destruct (Ascii.eqb c "<") eqn:E2;
    [apply Ascii.eqb_eq in E2; left; split; [done|tauto]|].
  destruct (Ascii.eqb c ">") eqn:E3;
    [apply Ascii.eqb_eq in E3; left; split; [done|tauto]|].
  destruct (Ascii.eqb c quot) eqn:E4;
    [apply Ascii.eqb_eq in E4; left; split; [done|tauto]|].
  destruct (Ascii.eqb c "'") eqn:E5;
    [apply Ascii.eqb_eq in E5; left; split; [done|tauto]|].
  right. done.
Qed.

Lemma escapeXml_escape_each s : escapeXml s = escape_each s.
Proof.
  induction s as [|a s IH]; [done|]. rewrite escapeXml_cons, IH. reflexivity.
Qed.

(** X4.  The five replacements of [escapeXml], made one after the other
    over the whole text, amount to replacing each character of the text
    once: the ampersands of the entities written for [<], [>] and the
    quotes are not escaped again, and an ampersand of the text is. *)
Theorem escapeXml_single_pass text :
  escapeXml text = escape_each text
  ∧ ∀ before after,
      escapeXml (before ++ after) = escapeXml before ++ escapeXml after.
Proof.
  split; [apply escapeXml_escape_each|].
  intros before after. rewrite !escapeXml_escape_each.
  induction before as [|a before IH]; [done|].
  rewrite append_cons. cbn [escape_each]. rewrite IH.
  by rewrite append_assoc.
Qed.

Lemma occurs_app c s1 s2 :
  occurs c (s1 ++ s2) = occurs c s1 || occurs c s2.
Proof.
  induction s1 as [|a s1 IH]; [done|]. rewrite append_cons.
  cbn [occurs]. rewrite IH. by rewrite orb_assoc.
Qed.

(** X5.  The escaped text holds no [<], no [>] and neither quote
    character, whatever the text. *)
Theorem escapeXml_no_markup text :
  occurs "<" (escapeXml text) = false
  ∧ occurs ">" (escapeXml text) = false
  ∧ occurs quot (escapeXml text) = false
  ∧ occurs "'" (escapeXml text) = false.
Proof.
  induction text as [|a text IH].
  - repeat split; reflexivity.
  - rewrite escapeXml_cons, !occurs_app. destruct IH as (I1 & I2 & I3 & I4).
    rewrite I1, I2, I3, I4, !orb_false_r.
    destruct (escape_char_cases a) as [[_ Hc]|[Hns ->]].
    + destruct Hc as [-> | [-> | [-> | [-> | ->]]]];
        repeat split; reflexivity.
    + cbn [occurs]. rewrite !orb_false_r.
      unfold is_special in Hns.
      apply orb_false_iff in Hns as [Hns H5].
      apply orb_false_iff in Hns as [Hns H4].
      apply orb_false_iff in Hns as [Hns H3].
      apply orb_false_iff in Hns as [H1 H2].
      done.
Qed.

(** X6.  Escaping loses nothing: two texts with the same escaped form are
    the same text. *)
Theorem escapeXml_injective text1 text2 :
  escapeXml text1 = escapeXml text2 → text1 = text2.
Proof.
  rewrite !escapeXml_escape_each.
  revert text2. induction text1 as [|a r IH]; intros [|b r'] Heq.
  - done.
  - exfalso. cbn [escape_each] in Heq.
    destruct (escape_char_cases b) as [[_ Hc]|[_ Hb]].
    + destruct Hc as [-> | [-> | [-> | [-> | ->]]]]; discriminate Heq.
    + rewrite Hb in Heq. discriminate Heq.
  - exfalso. cbn [escape_each] in Heq.
    destruct (escape_char_cases a) as [[_ Hc]|[_ Ha]].
    + destruct Hc as [-> | [-> | [-> | [-> | ->]]]]; discriminate Heq.
    + rewrite Ha in Heq. discriminate Heq.
  - cbn [escape_each] in Heq.
    destruct (escape_char_cases a) as [[_ Ha]|[Hsa Ha]];
      destruct (escape_char_cases b) as [[_ Hb]|[Hsb Hb]].
    + destruct Ha as [-> | [-> | [-> | [-> | ->]]]];
        destruct Hb as [-> | [-> | [-> | [-> | ->]]]];
        try discriminate Heq;
        (f_equal; apply IH; by injection Heq).
    + rewrite Hb in Heq.
      destruct Ha as [-> | [-> | [-> | [-> | ->]]]];
        injection Heq as <- _; discriminate Hsb.
    + rewrite Ha in Heq.
      destruct Hb as [-> | [-> | [-> | [-> | ->]]]];
        injection Heq as -> _; discriminate Hsa.
    + rewrite Ha, Hb in Heq. injection Heq as -> Heq.
      f_equal. by apply IH.
Qed.

End SmsEscape.

(** ** The SMS service: sending *)

Section SmsSend.
Import Sms.





End SmsSend.

(** ** Delivery counts *)

Section Delivery.
Context (st : ServerState).

Lemma received_filter id ev es :
  received st id ev (List.filter (is_event ev) es) = received st id ev es.
Proof.
  induction es as [|e es IH]; [done|].
  cbn [List.filter]. rewrite received_cons. unfold is_event at 1.
  destruct (bool_decide (event e = ev)) eqn:E.
  - rewrite received_cons. by rewrite IH.
  - rewrite IH. unfold receives. by rewrite E.
Qed.

Lemma received_to_room id ev p room :
  received st id ev [mkEmit (ToRoom room) ev p]
  = if decide (id ∈ room_members st room) then 1%nat else 0%nat.
Proof.
  rewrite received_cons, received_nil. unfold receives.
  cbn [event target recipients]. rewrite bool_decide_eq_true_2 by done.
  cbn [andb]. destruct (decide (id ∈ room_members st room)).
  - by rewrite bool_decide_eq_true_2.
  - by rewrite bool_decide_eq_false_2.
Qed.

Lemma received_to_others id ev p room sender :
  received st id ev [mkEmit (ToRoomExcept room sender) ev p]
  = if decide (id ∈ room_members st room ∧ id ≠ sender)
    then 1%nat else 0%nat.
Proof.
  rewrite received_cons, received_nil. unfold receives.
  cbn [event target recipients]. rewrite bool_decide_eq_true_2 by done.
  cbn [andb].
  destruct (decide (id ∈ room_members st room ∧ id ≠ sender)) as [[Hm Hne]|Hn].
  - rewrite bool_decide_eq_true_2; [done|].
    apply elem_of_difference. split; [done|]. by intros ?%elem_of_singleton.
  - rewrite bool_decide_eq_false_2; [done|].
    intros [Hm Hne]%elem_of_difference. apply Hn. split; [done|].
    intros ->. apply Hne. by apply elem_of_singleton.
Qed.

Lemma received_notifyAdmins id ev payload :
  received st id ev (notifyAdmins st ev payload)
  = if decide (id ∈ adminSockets st ∧ id ∈ io_sockets st)
    then 1%nat else 0%nat.
Proof.
  unfold notifyAdmins. rewrite received_to_sockets by apply NoDup_elements.
  apply decide_ext. by rewrite elem_of_elements.
Qed.

Lemma NoDup_ownerSockets_status account_id ticketId :
  NoDup (ownerSockets_status st account_id ticketId).
Proof. apply NoDup_fst_List_filter, NoDup_fst_map_to_list. Qed.

End Delivery.

(** ** Admin broadcasts *)

(** X9.  [ticket_created] hands [new_ticket], once, to every connected
    socket of [adminSockets] and to no other socket, and emits no other
    event; the sender needs no registration.  On a reachable state every
    registered connection whose recorded [isAdmin] is true is among
    them. *)
Theorem ticket_created_reaches_admin_set now data st id :
  received st id "new_ticket" (ticket_created now data st)
  = (if decide (id ∈ adminSockets st ∧ id ∈ io_sockets st)
     then 1%nat else 0%nat)
  ∧ (∀ ev, ev ≠ "new_ticket" →
           received st id ev (ticket_created now data st) = 0%nat)
  ∧ (reachable st →
     ∀ user, activeUsers st !! id = Some user →
             truthy (prop user "isAdmin") = true →
             received st id "new_ticket" (ticket_created now data st) = 1%nat).
Proof.
  unfold ticket_created. split; [apply received_notifyAdmins|]. split.
  - intros ev Hne. apply received_other_event. unfold notifyAdmins.
    apply Forall_fmap, Forall_forall. intros s _. cbn. congruence.
  - intros Hreach user Hlk Hadm. rewrite received_notifyAdmins.
    rewrite decide_True; [done|]. split.
    + by eapply admin_registered_in_set.
    + apply registered_connected; [done|]. by eexists.
Qed.

Lemma ticket_created_reaches_admin_set_witness :
  reachable (run Scenario.owner_and_admin)
  ∧ received (run Scenario.owner_and_admin) "a" "new_ticket"
      (ticket_created Scenario.now (Scenario.ticket (Num (Int 9)) "bob")
         (run Scenario.owner_and_admin)) = 1%nat.
Proof.
  split; [apply reachable_run|].
  refine (proj2 (proj2 (ticket_created_reaches_admin_set Scenario.now
                          (Scenario.ticket (Num (Int 9)) "bob")
                          (run Scenario.owner_and_admin) "a"))
            (reachable_run _)
            (literal [("userId", Num (Int 1)); ("username", Str "root");
                      ("isAdmin", Bool true); ("ticketId", Null)]) _ _).
  - apply (bool_decide_unpack _). vm_compute. exact I.
  - reflexivity.
Defined.

(** ** The message pipeline, case by case *)

Ltac run_task :=
  unfold try_catch, bind, getConnection, execute_insert, query, first_row,
    emit, emit_all, ret, throw, emits_of, outcome_of, storage_of.

Section MessageCases.
Context {DB : Type} `{Storage DB}.

(** The run of [send_message] once the row is stored and read back. *)
Lemma send_message_persisted socket_id data st (db : DB) messageId message db1 :
  persist_and_reread data db = Some (messageId, message, db1) →
  send_message socket_id data st db
  = (db1,
     (mkEmit (ToRoom (roomName (prop data "ticketId"))) "new_message"
        (new_message_payload message)
      :: (if strict_eq (prop data "sender") (Str "user")
          then notifyAdmins st "new_user_message"
                 (notification_payload data messageId message)
          else [])
      ++ (if strict_eq (prop data "sender") (Str "admin")
          then match select_ticket_owner db1 [prop data "ticketId"] with
               | Some (ticket :: _) =>
                   (λ socketId,
                      mkEmit (ToSocket socketId) "new_admin_message"
                        (notification_payload data messageId message))
                     <$> ownerSockets st (prop ticket "account_id")
               | Some [] => []
               | None => [message_error socket_id]
               end
          else []))%list,
     Some tt).
Proof.
  unfold persist_and_reread, send_message. run_task.
  destruct (pool_getConnection db); [|done].
  destruct (insert_message db (insert_params data)) as [[result db0]|]; [|done].
  destruct (select_message db0 [prop result "insertId"])
    as [[|message0 rest]|]; [done| |done].
  intros [= <- <- <-].
  destruct (strict_eq (prop data "sender") (Str "user"));
    destruct (strict_eq (prop data "sender") (Str "admin"));
    try destruct (select_ticket_owner db0 [prop data "ticketId"])
      as [[|ticket others]|];
    cbn [fst snd app]; rewrite ?app_nil_r; reflexivity.
Qed.

(** X10.  A stored message whose [sender] is ['user'] is announced by
    [new_user_message], once, to every connected socket of [adminSockets]
    and to nobody else, wherever the ticket belongs; no
    [new_admin_message] is emitted, and the owner lookup is not made.  On
    a reachable state every registered connection whose recorded
    [isAdmin] is true gets it. *)
Theorem user_message_notifies_admin_set socket_id data st (db : DB)
    messageId message db1 :
  prop data "sender" = Str "user" →
  persist_and_reread data db = Some (messageId, message, db1) →
  let r := send_message socket_id data st db in
  storage_of r = db1 ∧ outcome_of r = Some tt
  ∧ ∀ id,
      received st id "new_user_message" (emits_of r)
      = (if decide (id ∈ adminSockets st ∧ id ∈ io_sockets st)
         then 1%nat else 0%nat)
      ∧ received st id "new_admin_message" (emits_of r) = 0%nat
      ∧ received st id "message_error" (emits_of r) = 0%nat
      ∧ (reachable st →
         ∀ user, activeUsers st !! id = Some user →
                 truthy (prop user "isAdmin") = true →
                 received st id "new_user_message" (emits_of r) = 1%nat).
Proof.
  intros Hsender Hstored r. subst r.
  rewrite (send_message_persisted _ _ _ _ _ _ _ Hstored), Hsender.
  unfold emits_of, outcome_of, storage_of. cbn [fst snd strict_eq String.eqb
    Ascii.eqb Bool.eqb andb]. rewrite app_nil_r.
  do 2 (split; [done|]). intros id.
  assert (received st id "new_user_message"
            (mkEmit (ToRoom (roomName (prop data "ticketId"))) "new_message"
               (new_message_payload message)
             :: notifyAdmins st "new_user_message"
                  (notification_payload data messageId message))
          = if decide (id ∈ adminSockets st ∧ id ∈ io_sockets st)
            then 1%nat else 0%nat) as Hcount.
  { rewrite received_cons. unfold receives at 1. cbn [event].
    rewrite bool_decide_eq_false_2 by done. cbn [andb Nat.add].
    apply received_notifyAdmins. }
  split; [exact Hcount|]. split; [|split].
  - apply received_other_event. apply Forall_cons. split; [done|].
    unfold notifyAdmins. apply Forall_fmap, Forall_forall. by intros s _.
  - apply received_other_event. apply Forall_cons. split; [done|].
    unfold notifyAdmins. apply Forall_fmap, Forall_forall. by intros s _.
  - intros Hreach user Hlk Hadm. rewrite Hcount.
    rewrite decide_True; [done|]. split.
    + by eapply admin_registered_in_set.
    + apply registered_connected; [done|]. by eexists.
Qed.

(** X11.  A stored message whose [sender] is neither ['user'] nor
    ['admin'] is broadcast to the room of its ticket and nothing more:
    the single emit is the [new_message]. *)
Theorem other_sender_is_broadcast_only socket_id data st (db : DB)
    messageId message db1 :
  strict_eq (prop data "sender") (Str "user") = false →
  strict_eq (prop data "sender") (Str "admin") = false →
  persist_and_reread data db = Some (messageId, message, db1) →
  send_message socket_id data st db
  = (db1,
     [mkEmit (ToRoom (roomName (prop data "ticketId"))) "new_message"
        (new_message_payload message)],
     Some tt).
Proof.
  intros Huser Hadmin Hstored.
  rewrite (send_message_persisted _ _ _ _ _ _ _ Hstored), Huser, Hadmin.
  reflexivity.
Qed.

(** X12.  For a stored admin message the owner lookup comes after the
    room broadcast.  If that query fails, the room has its [new_message],
    the row stays stored, and the sender is still sent [message_error];
    if it finds no ticket, the broadcast is all there is and nobody is
    sent [new_admin_message] or an error. *)
Theorem admin_message_owner_lookup_outcomes socket_id data st (db : DB)
    messageId message db1 :
  prop data "sender" = Str "admin" →
  persist_and_reread data db = Some (messageId, message, db1) →
  (select_ticket_owner db1 [prop data "ticketId"] = None →
   send_message socket_id data st db
   = (db1,
      [mkEmit (ToRoom (roomName (prop data "ticketId"))) "new_message"
         (new_message_payload message);
       message_error socket_id],
      Some tt))
  ∧ (select_ticket_owner db1 [prop data "ticketId"] = Some [] →
     send_message socket_id data st db
     = (db1,
        [mkEmit (ToRoom (roomName (prop data "ticketId"))) "new_message"
           (new_message_payload message)],
        Some tt)).
Proof.
  intros Hsender Hstored.
  rewrite (send_message_persisted _ _ _ _ _ _ _ Hstored), Hsender.
  split; intros ->; reflexivity.
Qed.

(** X13.  When the insert succeeds and the row cannot be read back (the
    query fails, or the join with the account of [userId] gives no row),
    the insert is not undone: the storage keeps it, nothing is broadcast,
    and the sender is sent [message_error]. *)
Theorem stored_but_not_read_back socket_id data st (db : DB) result db1 :
  pool_getConnection db = true →
  insert_message db (insert_params data) = Some (result, db1) →
  select_message db1 [prop result "insertId"] = None
  ∨ select_message db1 [prop result "insertId"] = Some [] →
  send_message socket_id data st db
  = (db1, [message_error socket_id], Some tt).
Proof.
  intros Hpool Hins Hsel. unfold send_message. run_task.
  rewrite Hpool, Hins. by destruct Hsel as [-> | ->].
Qed.

Lemma received_new_message socket_id data st (db : DB) messageId message db1 id :
  persist_and_reread data db = Some (messageId, message, db1) →
  received st id "new_message" (emits_of (send_message socket_id data st db))
  = if decide (id ∈ room_members st (roomName (prop data "ticketId")))
    then 1%nat else 0%nat.
Proof.
  intros Hstored. rewrite <- received_filter, new_message_emits, Hstored.
  apply received_to_room.
Qed.

(** X14.  A stored message is handed as [new_message], once, to each
    member of the room of its ticket and to no socket outside it; the
    sender gets its own message back exactly when it is a member. *)
Theorem new_message_reaches_room_members socket_id data st (db : DB)
    messageId message db1 :
  persist_and_reread data db = Some (messageId, message, db1) →
  ∀ id,
    received st id "new_message" (emits_of (send_message socket_id data st db))
    = if decide (id ∈ room_members st (roomName (prop data "ticketId")))
      then 1%nat else 0%nat.
Proof.
  intros Hstored id. by eapply received_new_message.
Qed.

End MessageCases.

(** ** The message pipeline on the in-memory storage *)

Lemma user_message_notifies_admin_set_witness :
  prop Cases.user_message "sender" = Str "user"
  ∧ reachable (run Scenario.owner_and_admin)
  ∧ received (run Scenario.owner_and_admin) "a" "new_user_message"
      (emits_of (send_message "u" Cases.user_message
                   (run Scenario.owner_and_admin) MemDB.sample)) = 1%nat
  ∧ received (run Scenario.owner_and_admin) "u" "new_user_message"
      (emits_of (send_message "u" Cases.user_message
                   (run Scenario.owner_and_admin) MemDB.sample)) = 0%nat.
Proof.
  pose proof (user_message_notifies_admin_set "u" Cases.user_message
                (run Scenario.owner_and_admin) MemDB.sample _ _ _
                eq_refl eq_refl) as (_ & _ & Hthm).
  split; [reflexivity|]. split; [apply reachable_run|]. split.
  - destruct (Hthm "a") as (-> & _). vm_compute. reflexivity.
  - destruct (Hthm "u") as (-> & _). vm_compute. reflexivity.
Defined.

Lemma other_sender_is_broadcast_only_witness :
  strict_eq (prop Cases.system_message "sender") (Str "user") = false
  ∧ strict_eq (prop Cases.system_message "sender") (Str "admin") = false
  ∧ (λ e, (target e, event e))
      <$> emits_of (send_message "u" Cases.system_message
                      (run Scenario.owner_and_admin) MemDB.sample)
    = [(ToRoom "ticket_7", "new_message")].
Proof.
  split; [reflexivity|]. split; [reflexivity|].
  erewrite (other_sender_is_broadcast_only "u" Cases.system_message
              (run Scenario.owner_and_admin) MemDB.sample);
    [|reflexivity..].
  reflexivity.
Defined.

Lemma admin_message_owner_lookup_outcomes_witness :
  (λ e, (target e, event e))
    <$> emits_of (send_message "a" Scenario.admin_message
                    (run Scenario.owner_and_admin) FlakyDB.sample)
  = [(ToRoom "ticket_7", "new_message"); (ToSocket "a", "message_error")]
  ∧ (λ e, (target e, event e))
      <$> emits_of (send_message "a" Cases.admin_message_unknown_ticket
                      (run Scenario.owner_and_admin) MemDB.sample)
    = [(ToRoom "ticket_99", "new_message")].
Proof.
  split.
  - edestruct (admin_message_owner_lookup_outcomes "a"
                 Scenario.admin_message (run Scenario.owner_and_admin)
                 FlakyDB.sample) as [Hrefused _]; [reflexivity..|].
    rewrite Hrefused by reflexivity. reflexivity.
  - edestruct (admin_message_owner_lookup_outcomes "a"
                 Cases.admin_message_unknown_ticket
                 (run Scenario.owner_and_admin) MemDB.sample)
      as [_ Hunknown]; [reflexivity..|].
    rewrite Hunknown by reflexivity. reflexivity.
Defined.

Lemma stored_but_not_read_back_witness :
  emits_of (send_message "u" Cases.orphan_message
              (run Scenario.owner_and_admin) MemDB.sample)
  = [message_error "u"]
  ∧ length (MemDB.ticket_messages
              (storage_of (send_message "u" Cases.orphan_message
                             (run Scenario.owner_and_admin) MemDB.sample)))
    = 1%nat.
Proof.
  erewrite (stored_but_not_read_back "u" Cases.orphan_message
              (run Scenario.owner_and_admin) MemDB.sample);
    [|reflexivity|reflexivity|right; reflexivity].
  split; reflexivity.
Defined.

Lemma new_message_reaches_room_members_witness :
  received (run Cases.two_in_room) "u" "new_message"
    (emits_of (send_message "u" Cases.user_message (run Cases.two_in_room)
                 MemDB.sample)) = 1%nat
  ∧ received (run Cases.two_in_room) "v" "new_message"
      (emits_of (send_message "u" Cases.user_message (run Cases.two_in_room)
                   MemDB.sample)) = 1%nat
  ∧ received (run Cases.two_in_room) "w" "new_message"
      (emits_of (send_message "u" Cases.user_message (run Cases.two_in_room)
                   MemDB.sample)) = 0%nat.
Proof.
  split; [|split];
    (erewrite (new_message_reaches_room_members "u" Cases.user_message
                 (run Cases.two_in_room) MemDB.sample); [|reflexivity]);
    vm_compute; reflexivity.
Defined.

(** ** Status changes on the real-time path *)

Section StatusCases.
Context {DB : Type} `{Storage DB}.

(** X15.  When the ticket is found, [status_updated] hands
    [ticket_status_changed] to a socket once for its membership of the
    room of the ticket and once more if it is a connected socket whose
    registry entry has a [userId] strictly equal to the owner's
    [account_id] and a cached [ticketId] not strictly equal to the
    ticket's: zero, one or two deliveries. *)
Theorem status_updated_delivery_count now data st (db : DB) ticket others :
  pool_getConnection db = true →
  select_ticket db [prop data "ticketId"] = Some (ticket :: others) →
  ∀ id,
    received st id "ticket_status_changed"
      (emits_of (status_updated now data st db))
    = ((if decide (id ∈ room_members st (roomName (prop data "ticketId")))
        then 1 else 0)
       + (if decide (id ∈ ownerSockets_status st (prop ticket "account_id")
                            (prop data "ticketId")
                     ∧ id ∈ io_sockets st)
          then 1 else 0))%nat
    ∧ (id ∈ ownerSockets_status st (prop ticket "account_id")
              (prop data "ticketId") ↔
       ∃ user, activeUsers st !! id = Some user
               ∧ strict_eq (prop user "userId") (prop ticket "account_id")
                 = true
               ∧ strict_eq (prop user "ticketId") (prop data "ticketId")
                 = false).
Proof.
  intros Hpool Hsel id. split; [|apply elem_of_ownerSockets_status].
  unfold status_updated. run_task.
  rewrite Hpool, Hsel. cbn [fst snd app]. rewrite ?app_nil_r.
  rewrite received_cons, received_to_sockets
    by apply NoDup_ownerSockets_status.
  unfold receives. cbn [event target recipients].
  rewrite bool_decide_eq_true_2 by done. cbn [andb]. f_equal.
  destruct (decide (id ∈ room_members st (roomName (prop data "ticketId")))).
  - by rewrite bool_decide_eq_true_2.
  - by rewrite bool_decide_eq_false_2.
Qed.

(** X16.  [status_updated] reports nothing to its sender: when the pool
    gives no connection, when the query fails and when no ticket is
    found, it emits nothing and returns normally.  In every case it leaves
    the storage as it was and every event it emits is a
    [ticket_status_changed]. *)
Theorem status_updated_fails_silently now data st (db : DB) :
  (pool_getConnection db = false
   ∨ select_ticket db [prop data "ticketId"] = None
   ∨ select_ticket db [prop data "ticketId"] = Some [] →
   status_updated now data st db = (db, [], Some tt))
  ∧ storage_of (status_updated now data st db) = db
  ∧ outcome_of (status_updated now data st db) = Some tt
  ∧ Forall (λ e, event e = "ticket_status_changed")
      (emits_of (status_updated now data st db)).
Proof.
  unfold status_updated. run_task.
  destruct (pool_getConnection db).
  2:{ repeat split; try done. }
  destruct (select_ticket db [prop data "ticketId"]) as [[|ticket others]|].
  - repeat split; try done.
  - cbn [fst snd app]. split.
    { intros [?|[?|?]]; discriminate. }
    do 2 (split; [done|]). apply Forall_cons. split; [done|].
    rewrite ?app_nil_r. apply Forall_fmap, Forall_forall. by intros s _.
  - repeat split; try done.
Qed.

End StatusCases.

Lemma status_updated_delivery_count_witness :
  received (run Cases.two_in_room) "u" "ticket_status_changed"
    (emits_of (status_updated Scenario.now Scenario.status_change
                 (run Cases.two_in_room) MemDB.sample)) = 1%nat
  ∧ received (run Cases.two_in_room) "w" "ticket_status_changed"
      (emits_of (status_updated Scenario.now Scenario.status_change
                   (run Cases.two_in_room) MemDB.sample)) = 0%nat
  ∧ received (run Scenario.two_rooms) "u" "ticket_status_changed"
      (emits_of (status_updated Scenario.now Scenario.status_change
                   (run Scenario.two_rooms) MemDB.sample)) = 2%nat.
Proof.
  split; [|split].
  - edestruct (status_updated_delivery_count Scenario.now
                 Scenario.status_change (run Cases.two_in_room) MemDB.sample)
      as [Hcount _]; [reflexivity..|].
    rewrite Hcount. vm_compute. reflexivity.
  - edestruct (status_updated_delivery_count Scenario.now
                 Scenario.status_change (run Cases.two_in_room) MemDB.sample)
      as [Hcount _]; [reflexivity..|].
    rewrite Hcount. vm_compute. reflexivity.
  - edestruct (status_updated_delivery_count Scenario.now
                 Scenario.status_change (run Scenario.two_rooms) MemDB.sample)
      as [Hcount _]; [reflexivity..|].
    rewrite Hcount. vm_compute. reflexivity.
Defined.

Lemma status_updated_fails_silently_witness :
  emits_of (status_updated Scenario.now Scenario.status_change
              (run Cases.two_in_room) MemDB.offline) = []
  ∧ emits_of (status_updated Scenario.now
                (Scenario.ticket (Num (Int 99)) "root")
                (run Cases.two_in_room) MemDB.sample) = [].
Proof.
  split.
  - rewrite (proj1 (status_updated_fails_silently Scenario.now
                      Scenario.status_change (run Cases.two_in_room)
                      MemDB.offline)) by (left; reflexivity).
    reflexivity.
  - rewrite (proj1 (status_updated_fails_silently Scenario.now
                      (Scenario.ticket (Num (Int 99)) "root")
                      (run Cases.two_in_room) MemDB.sample))
      by (right; right; reflexivity).
    reflexivity.
Defined.

(** ** Rooms *)

Lemma room_members_join id data st room :
  room_members (join_ticket id data st).1 room
  = if decide (room = roomName (prop data "ticketId"))
    then {[id]} ∪ room_members st room else room_members st room.
Proof.
  unfold room_members at 1. cbn [join_ticket fst io_rooms].
  case_decide as Hroom.
  - subst room. by rewrite lookup_insert_eq.
  - by rewrite lookup_insert_ne.
Qed.

Lemma room_members_leave id data st room :
  room_members (leave_ticket id data st).1 room
  = if decide (room = roomName (prop data "ticketId"))
    then room_members st room ∖ {[id]} else room_members st room.
Proof.
  unfold room_members at 1. cbn [leave_ticket fst io_rooms].
  case_decide as Hroom.
  - subst room. by rewrite lookup_insert_eq.
  - by rewrite lookup_insert_ne.
Qed.

(** X17.  [join_ticket] admits the socket to the room of the ticket it
    names, whoever the socket is, and takes nothing away: every socket
    stays in every room it was in (so a socket that joins a second ticket
    is in both rooms), the admin set and the entries of the other sockets
    are untouched, and the socket's own entry changes in [ticketId]
    only. *)
Theorem join_ticket_adds_membership_only id data st :
  let st' := (join_ticket id data st).1 in
  id ∈ room_members st' (roomName (prop data "ticketId"))
  ∧ (∀ room x, x ∈ room_members st' room ↔
               x ∈ room_members st room
               ∨ (x = id ∧ room = roomName (prop data "ticketId")))
  ∧ adminSockets st' = adminSockets st
  ∧ io_sockets st' = io_sockets st
  ∧ (∀ other, other ≠ id → activeUsers st' !! other = activeUsers st !! other)
  ∧ ∃ entry, activeUsers st' !! id = Some entry
             ∧ prop entry "ticketId" = prop data "ticketId"
             ∧ ∀ k, k ≠ "ticketId" →
                    prop entry k
                    = prop (default ∅ (activeUsers st !! id)) k.
Proof.
  intros st'. subst st'. split; [|split].
  - rewrite room_members_join, decide_True by done.
    by apply elem_of_union_l, elem_of_singleton.
  - intros room x. rewrite room_members_join. case_decide as Hroom.
    + rewrite elem_of_union, elem_of_singleton. tauto.
    + tauto.
  - do 2 (split; [done|]). split.
    + intros other Hne. cbn. by rewrite lookup_insert_ne.
    + eexists. split; [cbn; apply lookup_insert_eq|]. split.
      * unfold prop. by rewrite lookup_insert_eq.
      * intros k Hk. unfold prop. by rewrite lookup_insert_ne.
Qed.

(** X18.  [leave_ticket] removes the socket from the room of the ticket
    it names and from no other room, removes no other socket, and leaves
    the registry as it was: the entry of the socket keeps the [ticketId]
    it had. *)
Theorem leave_ticket_removes_membership_only id data st :
  let st' := (leave_ticket id data st).1 in
  (id ∉ room_members st' (roomName (prop data "ticketId")))
  ∧ (∀ room x, x ∈ room_members st' room ↔
               x ∈ room_members st room
               ∧ ¬ (x = id ∧ room = roomName (prop data "ticketId")))
  ∧ activeUsers st' = activeUsers st
  ∧ adminSockets st' = adminSockets st
  ∧ io_sockets st' = io_sockets st.
Proof.
  intros st'. subst st'. split; [|split]; [| |done].
  - rewrite room_members_leave, decide_True by done.
    intros [_ Hne]%elem_of_difference. apply Hne. by apply elem_of_singleton.
  - intros room x. rewrite room_members_leave. case_decide as Hroom.
    + rewrite elem_of_difference, elem_of_singleton. tauto.
    + tauto.
Qed.

(** X19.  [typing] and [stop_typing] hand their event, once, to every
    member of the room of the named ticket other than the sender, and to
    nobody else; the sender gets nothing, and it need not be a member of
    the room or registered. *)
Theorem typing_reaches_other_members socket_id data st id :
  received st id "user_typing" (typing socket_id data)
  = (if decide (id ∈ room_members st (roomName (prop data "ticketId"))
                ∧ id ≠ socket_id)
     then 1%nat else 0%nat)
  ∧ received st id "user_stop_typing" (stop_typing socket_id data)
    = (if decide (id ∈ room_members st (roomName (prop data "ticketId"))
                  ∧ id ≠ socket_id)
       then 1%nat else 0%nat)
  ∧ (∀ ev, received st socket_id ev (typing socket_id data) = 0%nat
           ∧ received st socket_id ev (stop_typing socket_id data) = 0%nat).
Proof.
  split; [apply received_to_others|]. split; [apply received_to_others|].
  intros ev. unfold typing, stop_typing.
  split; rewrite received_cons, received_nil; unfold receives;
    cbn [target recipients];
    rewrite (bool_decide_eq_false_2 (socket_id ∈ _)), andb_false_r; try done;
    intros [_ Hne]%elem_of_difference; apply Hne; by apply elem_of_singleton.
Qed.

Section RoomsAndMessages.
Context {DB : Type} `{Storage DB}.

(** X20.  Joining and leaving decide who reads a ticket: right after its
    [join_ticket] any socket is handed the [new_message] of a stored
    message for that room, and right after its [leave_ticket] it is
    handed none. *)
Theorem join_then_leave_controls_new_message id join_data socket_id data st
    (db : DB) messageId message db1 :
  persist_and_reread data db = Some (messageId, message, db1) →
  roomName (prop data "ticketId") = roomName (prop join_data "ticketId") →
  let joined := (join_ticket id join_data st).1 in
  let left := (leave_ticket id join_data joined).1 in
  received joined id "new_message"
    (emits_of (send_message socket_id data joined db)) = 1%nat
  ∧ received left id "new_message"
      (emits_of (send_message socket_id data left db)) = 0%nat.
Proof.
  intros Hstored Hroom joined left.
  rewrite !(received_new_message _ _ _ _ _ _ _ _ Hstored), Hroom.
  split.
  - rewrite decide_True; [done|]. subst joined.
    rewrite room_members_join, decide_True by done.
    by apply elem_of_union_l, elem_of_singleton.
  - rewrite decide_False; [done|]. subst left.
    rewrite room_members_leave, decide_True by done.
    intros [_ Hne]%elem_of_difference. apply Hne. by apply elem_of_singleton.
Qed.

End RoomsAndMessages.

Lemma join_then_leave_controls_new_message_witness :
  roomName (prop Cases.user_message "ticketId")
  = roomName (prop (Scenario.ticket (Str "7") "dan") "ticketId")
  ∧ received (join_ticket "w" (Scenario.ticket (Str "7") "dan")
                (run Cases.two_in_room)).1 "w" "new_message"
      (emits_of (send_message "u" Cases.user_message
                   (join_ticket "w" (Scenario.ticket (Str "7") "dan")
                      (run Cases.two_in_room)).1 MemDB.sample)) = 1%nat.
Proof.
  split; [reflexivity|].
  edestruct (join_then_leave_controls_new_message "w"
               (Scenario.ticket (Str "7") "dan") "u" Cases.user_message
               (run Cases.two_in_room) MemDB.sample) as [Hjoined _];
    [reflexivity|reflexivity|exact Hjoined].
Defined.

(** ** Registration and disconnect *)

Lemma io_drop_idempotent id st : io_drop id (io_drop id st) = io_drop id st.
Proof.
  unfold io_drop. cbn [activeUsers adminSockets io_sockets io_rooms]. f_equal.
  - apply set_eq. intros x. rewrite !elem_of_difference. tauto.
  - rewrite <- map_fmap_compose. apply map_fmap_ext. intros room members _.
    cbn. apply set_eq. intros x. rewrite !elem_of_difference. tauto.
Qed.

Lemma disconnect_io_rooms id st :
  io_rooms (disconnect id st).1 = (λ members, members ∖ {[id]}) <$> io_rooms st.
Proof.
  unfold disconnect. cbn [io_drop activeUsers].
  by destruct (activeUsers st !! id).
Qed.

(** X21.  [disconnect] removes the registry entry of the socket and no
    other, takes no other socket out of the admin set, and takes the
    socket itself out when its entry records a true [isAdmin].  For a
    socket without an entry it changes neither container and emits
    nothing; run a second time it changes nothing and emits nothing. *)
Theorem disconnect_removes_registration id st :
  let st' := (disconnect id st).1 in
  activeUsers st' !! id = None
  ∧ (∀ other, other ≠ id → activeUsers st' !! other = activeUsers st !! other)
  ∧ (∀ other, other ≠ id → other ∈ adminSockets st' ↔ other ∈ adminSockets st)
  ∧ (∀ user, activeUsers st !! id = Some user →
             truthy (prop user "isAdmin") = true → id ∉ adminSockets st')
  ∧ (activeUsers st !! id = None →
     adminSockets st' = adminSockets st ∧ (disconnect id st).2 = [])
  ∧ disconnect id st' = (st', []).
Proof.
  intros st'. subst st'.
  split; [by rewrite disconnect_activeUsers, lookup_delete_eq|].
  split; [intros other Hne; by rewrite disconnect_activeUsers,
                                 lookup_delete_ne|].
  split.
  { intros other Hne. rewrite disconnect_adminSockets.
    destruct (activeUsers st !! id) as [user|]; [|done].
    destruct (truthy (prop user "isAdmin")); [|done].
    rewrite elem_of_difference, elem_of_singleton. tauto. }
  split.
  { intros user Hlk Hadm. rewrite disconnect_adminSockets, Hlk, Hadm.
    intros [_ Hne]%elem_of_difference. apply Hne. by apply elem_of_singleton. }
  split.
  { intros Hnone. rewrite disconnect_adminSockets, Hnone. split; [done|].
    unfold disconnect. cbn [io_drop activeUsers]. by rewrite Hnone. }
  assert (activeUsers (io_drop id (disconnect id st).1) !! id = None) as Hgone.
  { cbn [io_drop activeUsers].
    by rewrite disconnect_activeUsers, lookup_delete_eq. }
  unfold disconnect at 1. rewrite Hgone. f_equal.
  unfold disconnect. cbn [io_drop activeUsers].
  destruct (activeUsers st !! id) as [user|]; cbn [fst].
  - unfold io_drop. cbn [activeUsers adminSockets io_sockets io_rooms]. f_equal.
    + apply set_eq. intros x. rewrite !elem_of_difference. tauto.
    + rewrite <- map_fmap_compose. apply map_fmap_ext. intros room members _.
      cbn. apply set_eq. intros x. rewrite !elem_of_difference. tauto.
  - apply io_drop_idempotent.
Qed.

(** X22.  A whole session leaves the two containers as it found them: for
    a socket that has no entry and is not in the admin set, [connection],
    one [join_system] (admin or not) and [disconnect] give back the same
    registry and the same admin set. *)
Theorem session_leaves_no_trace id data st :
  activeUsers st !! id = None → id ∉ adminSockets st →
  let st' := (disconnect id (join_system id data (connection id st)).1).1 in
  activeUsers st' = activeUsers st ∧ adminSockets st' = adminSockets st.
Proof.
  intros Hnone Hadm st'. subst st'. split.
  - rewrite disconnect_activeUsers. cbn. by apply delete_insert_id.
  - rewrite disconnect_adminSockets.
    cbn [join_system connection fst activeUsers adminSockets].
    rewrite lookup_insert_eq.
    change (prop (literal [("userId", prop data "userId");
                           ("username", prop data "username");
                           ("isAdmin", Bool (truthy (prop data "isAdmin")));
                           ("ticketId", Null)]) "isAdmin")
      with (Bool (truthy (prop data "isAdmin"))).
    cbn [truthy]. destruct (truthy (prop data "isAdmin")); [|done].
    apply set_eq. intros x.
    rewrite elem_of_difference, elem_of_union, elem_of_singleton.
    split; [tauto|]. intros Hx. split; [tauto|]. by intros ->.
Qed.

Lemma session_leaves_no_trace_witness :
  activeUsers (run Scenario.string_id) !! "a" = None
  ∧ ("a" ∉ adminSockets (run Scenario.string_id))
  ∧ adminSockets
      (disconnect "a"
         (join_system "a" (Scenario.identity (Num (Int 1)) "root" true)
            (connection "a" (run Scenario.string_id))).1).1
    = adminSockets (run Scenario.string_id).
Proof.
  assert (activeUsers (run Scenario.string_id) !! "a" = None) as Hnone.
  { reflexivity. }
  assert ("a" ∉ adminSockets (run Scenario.string_id)) as Hadm.
  { apply (bool_decide_unpack _). vm_compute. exact I. }
  split; [exact Hnone|]. split; [exact Hadm|].
  exact (proj2 (session_leaves_no_trace "a"
                  (Scenario.identity (Num (Int 1)) "root" true)
                  (run Scenario.string_id) Hnone Hadm)).
Defined.

(** X23.  On every reachable state the registry holds connected sockets
    only, so the [activeUsers] figure of the health endpoint never exceeds
    the number of connected sockets, and every registered connection whose
    recorded [isAdmin] is true is in the admin set. *)
Theorem registry_holds_connected_sockets st now :
  reachable st →
  dom (activeUsers st) ⊆ io_sockets st
  ∧ (size (activeUsers st) ≤ size (io_sockets st))%nat
  ∧ prop (health now st) "activeUsers"
    = Num (Int (Z.of_nat (size (activeUsers st))))
  ∧ ∀ id user, activeUsers st !! id = Some user →
               truthy (prop user "isAdmin") = true → id ∈ adminSockets st.
Proof.
  intros Hreach.
  assert (dom (activeUsers st) ⊆ io_sockets st) as Hdom.
  { intros id Hin. apply registered_connected; [done|].
    by apply elem_of_dom. }
  split; [exact Hdom|]. split.
  - rewrite <- size_dom. by apply subseteq_size.
  - split; [reflexivity|]. by apply admin_registered_in_set.
Qed.

Lemma registry_holds_connected_sockets_witness :
  reachable (run Cases.two_in_room)
  ∧ (size (activeUsers (run Cases.two_in_room))
     ≤ size (io_sockets (run Cases.two_in_room)))%nat.
Proof.
  split; [apply reachable_run|].
  exact (proj1 (proj2 (registry_holds_connected_sockets
                         (run Cases.two_in_room) Scenario.now
                         (reachable_run Cases.two_in_room)))).
Defined.

(** X24.  A [join_system] after a [join_ticket] writes a fresh entry with
    [ticketId: null] and leaves the socket in the room: the disconnect
    that follows tells the room nothing. *)
Theorem join_system_forgets_room id ticket_data data st :
  let st1 := (join_ticket id ticket_data st).1 in
  let st2 := (join_system id data st1).1 in
  id ∈ room_members st2 (roomName (prop ticket_data "ticketId"))
  ∧ (∃ entry, activeUsers st1 !! id = Some entry
              ∧ prop entry "ticketId" = prop ticket_data "ticketId")
  ∧ (∃ entry, activeUsers st2 !! id = Some entry
              ∧ prop entry "ticketId" = Null)
  ∧ (disconnect id st2).2 = [].
Proof.
  intros st1 st2. subst st1 st2. split; [|split; [|split]].
  - change (room_members (join_system id data (join_ticket id ticket_data st).1).1)
      with (room_members (join_ticket id ticket_data st).1).
    rewrite room_members_join, decide_True by done.
    by apply elem_of_union_l, elem_of_singleton.
  - eexists. split; [cbn; apply lookup_insert_eq|].
    unfold prop. by rewrite lookup_insert_eq.
  - eexists. split; [cbn; apply lookup_insert_eq|]. reflexivity.
  - unfold disconnect. cbn [io_drop activeUsers join_system fst].
    rewrite lookup_insert_eq. reflexivity.
Qed.

(** ** The further properties on sample inputs *)

Lemma escapeXml_injective_witness :
  Sms.escapeXml "a<b & c" = Sms.escapeXml ("a<" ++ "b & c")
  ∧ "a<b & c" = "a<" ++ "b & c".
Proof.
  assert (Sms.escapeXml "a<b & c" = Sms.escapeXml ("a<" ++ "b & c")) as Heq.
  { reflexivity. }
  split; [exact Heq|].
  exact (escapeXml_injective "a<b & c" ("a<" ++ "b & c") Heq).
Defined.

Lemma join_ticket_adds_membership_only_witness :
  "u" ≠ "w"
  ∧ activeUsers (join_ticket "w" (Scenario.ticket (Num (Int 7)) "dan")
                   (run Cases.two_in_room)).1 !! "u"
    = activeUsers (run Cases.two_in_room) !! "u"
  ∧ "w" ∈ room_members
            (join_ticket "w" (Scenario.ticket (Num (Int 7)) "dan")
               (run Cases.two_in_room)).1 "ticket_7".
Proof.
  assert ("u" ≠ "w") as Hne by discriminate.
  destruct (join_ticket_adds_membership_only "w"
              (Scenario.ticket (Num (Int 7)) "dan") (run Cases.two_in_room))
    as (Hin & _ & _ & _ & Hother & _).
  split; [exact Hne|]. split; [exact (Hother "u" Hne)|exact Hin].
Defined.

Lemma disconnect_removes_registration_witness :
  activeUsers (run Scenario.owner_and_admin) !! "a"
  = Some (literal [("userId", Num (Int 1)); ("username", Str "root");
                   ("isAdmin", Bool true); ("ticketId", Null)])
  ∧ ("a" ∉ adminSockets (disconnect "a" (run Scenario.owner_and_admin)).1)
  ∧ activeUsers (disconnect "a" (run Scenario.owner_and_admin)).1 !! "u"
    = activeUsers (run Scenario.owner_and_admin) !! "u".
Proof.
  assert (activeUsers (run Scenario.owner_and_admin) !! "a"
          = Some (literal [("userId", Num (Int 1)); ("username", Str "root");
                           ("isAdmin", Bool true); ("ticketId", Null)]))
    as Hentry.
  { apply (bool_decide_unpack _). vm_compute. exact I. }
  destruct (disconnect_removes_registration "a" (run Scenario.owner_and_admin))
    as (_ & Hother & _ & Hadmin & _).
  split; [exact Hentry|]. split.
  - exact (Hadmin _ Hentry eq_refl).
  - apply Hother. discriminate.
Defined.
